(** * Reconciliation of JetStream consumers

    A shallow embedding of [controllers/jetstream/consumer.go]: the
    per-key reconciliation [processConsumer], the existence check, the
    create and delete operations against the backend, and the status and
    finalizer writes to the declarative store.

    Go values of type [error] are [option error] ([None] is [nil]); a
    pair [(value, err)] returned by a collaborator is a [result].  Every
    call that leaves the process (backend, store, event recorder) is an
    operation on an abstract world [W] and is recorded, with its outcome,
    in a trace of [Effect]s, so that statements about what a
    reconciliation did or did not do are statements about its trace.

    [setConsumerFinalizer] and [clearConsumerFinalizer] change the object
    they are given before they write it, and [processConsumer] reassigns
    its variable [cns]; the deferred function that writes the errored
    status reads that variable when it runs.  The functions below
    therefore hand back the object [cns] refers to next to their
    result. *)

From Stdlib Require Import String List ZArith Bool.
Import ListNotations.
Local Open Scope string_scope.

(** ** Errors *)

(** The three dynamic types of error values the controller tells apart:
    plain errors ([errors.New]), [jsmapi.ApiError] values (which carry the
    backend's status code) and the store's status errors (which carry a
    reason). *)
Inductive errKind :=
| PlainError
| ApiError (Code : Z)
| StatusError (Reason : string).

(** An error is a base error with its text, or [fmt.Errorf] with one
    [%w] verb at the end of the format: [Errorf prefix inner] has the text
    [prefix ++ Error inner] and unwraps to [inner]. *)
Inductive error :=
| BaseError (k : errKind) (text : string)
| Errorf (prefix : string) (inner : error).

(** [err.Error()] *)
Fixpoint Error (e : error) : string :=
  match e with
  | BaseError _ text => text
  | Errorf prefix inner => prefix ++ Error inner
  end.

(** [var apierr jsmapi.ApiError; errors.As(err, &apierr)]: the first
    [ApiError] along the chain of wrapped errors. *)
Fixpoint As_ApiError (e : error) : option Z :=
  match e with
  | BaseError (ApiError code) _ => Some code
  | BaseError _ _ => None
  | Errorf _ inner => As_ApiError inner
  end.

(** [jsmapi.ApiError.NotFoundError] of the jsm.go library: the tests build
    their not-found error as [jsmapi.ApiError{Code: 404}]. *)
Definition NotFoundError (code : Z) : bool := (code =? 404)%Z.

(** The condition [errors.As(err, &apierr) && apierr.NotFoundError()] on a
    non-nil [err]. *)
Definition apiNotFound (e : error) : bool :=
  match As_ApiError e with
  | Some code => NotFoundError code
  | None => false
  end.

(** [k8serrors.ReasonForError]: the reason of the first status error
    along the chain, the empty reason ([StatusReasonUnknown]) when there
    is none. *)
Fixpoint ReasonForError (e : error) : string :=
  match e with
  | BaseError (StatusError reason) _ => reason
  | BaseError _ _ => ""
  | Errorf _ inner => ReasonForError inner
  end.

(** The text of a possibly nil error, empty for [nil]. *)
Definition Error_of_option (err : option error) : string :=
  match err with
  | Some e => Error e
  | None => ""
  end.

(** The text [sub] occurs in the text [s]. *)
Definition contains (s sub : string) : Prop :=
  exists before after, s = before ++ sub ++ after.

(** [k8serrors.IsNotFound] *)
Definition IsNotFound (e : error) : bool :=
  String.eqb (ReasonForError e) "NotFound".

Inductive result (A : Type) :=
| Ok (a : A)
| Err (e : error).
Arguments Ok {A} a.
Arguments Err {A} e.

(** ** The declarative objects *)

Inductive ConditionStatus := ConditionTrue | ConditionFalse | ConditionUnknown.

Record Condition := {
  c_Type : string;
  c_Status : ConditionStatus;
  c_LastTransitionTime : string;
  c_Reason : string;
  c_Message : string
}.

Record Status := {
  ObservedGeneration : Z;
  Conditions : list Condition
}.

Record CredentialsSecret := {
  cs_Name : string;
  cs_Key : string
}.

(** The fields of [apis.ConsumerSpec] that the reconciliation reads. *)
Record ConsumerSpec := {
  DurableName : string;
  StreamName : string;
  Servers : list string;
  CredentialsSecret_ : CredentialsSecret
}.

(** [apis.Consumer]: the object metadata the reconciliation reads or
    writes, the spec and the status.  [DeletionTimestamp] is a pointer in
    the source; [None] is [nil]. *)
Record Consumer := {
  Namespace : string;
  Name : string;
  Finalizers : list string;
  Generation : Z;
  DeletionTimestamp : option Z;
  Spec : ConsumerSpec;
  Status_ : Status
}.

Definition SetFinalizers (s : Consumer) (fs : list string) : Consumer :=
  {| Namespace := Namespace s; Name := Name s; Finalizers := fs;
     Generation := Generation s; DeletionTimestamp := DeletionTimestamp s;
     Spec := Spec s; Status_ := Status_ s |}.

Definition SetStatus (s : Consumer) (st : Status) : Consumer :=
  {| Namespace := Namespace s; Name := Name s; Finalizers := Finalizers s;
     Generation := Generation s; DeletionTimestamp := DeletionTimestamp s;
     Spec := Spec s; Status_ := st |}.

(** [jsmapi.ConsumerConfig], of which [createConsumer] sets [Durable]. *)
Record ConsumerConfig := { Durable : string }.

(** Credentials are the bytes of a secret. *)
Definition Creds := string.

(** ** Constants *)

Definition consumerFinalizerKey : string := "consumerfinalizer.jetstream.nats.io".

(** ** Finalizer and condition helpers *)

(** Modelled from the spec: [addFinalizer] is declared outside
    [consumer.go] and its body is not among the sources.  Section 4.3:
    add is a no-op if the token is already present; the token is put at
    the end of the list. *)
Definition addFinalizer (fs : list string) (key : string) : list string :=
  if existsb (String.eqb key) fs then fs else (fs ++ [key])%list.

(** Modelled from the spec: [removeFinalizer] is declared outside
    [consumer.go] and its body is not among the sources.  Section 4.3:
    remove drops all occurrences of the token and keeps the order of the
    remainder. *)
Definition removeFinalizer (fs : list string) (key : string) : list string :=
  filter (fun f => negb (String.eqb f key)) fs.

(** Modelled from the spec: [upsertCondition] is declared outside
    [consumer.go] and its body is not among the sources.  Section 4.3:
    replace the entry whose [Type] matches, else append. *)
Fixpoint upsertCondition (cs : list Condition) (next : Condition) : list Condition :=
  match cs with
  | [] => [next]
  | c :: rest =>
      if String.eqb (c_Type c) (c_Type next) then next :: rest
      else c :: upsertCondition rest next
  end.

(** ** Effects *)

Inductive EventType := EventTypeNormal | EventTypeWarning.

Definition errOf {A : Type} (r : result A) : option error :=
  match r with
  | Ok _ => None
  | Err e => Some e
  end.

Definition isSome {A : Type} (o : option A) : bool :=
  match o with
  | Some _ => true
  | None => false
  end.

(** What a reconciliation does to the outside, in the order it does it.
    A call carries its arguments and the error it returned; a write to
    the store carries the object written and what the store answered. *)
Inductive Effect :=
| CallGetCreds (ns : string) (cs : CredentialsSecret) (err : option error)
| Emit (o : Consumer) (eventtype : EventType) (reason message : string)
| CallConnect (servers natsName : string) (creds : Creds) (err : option error)
| CallClose
| CallLoadConsumer (stream consumer : string) (err : option error)
| CallNewConsumer (stream : string) (cfg : ConsumerConfig) (err : option error)
| CallDelete (err : option error)
| CallUpdate (o : Consumer) (r : result Consumer)
| CallUpdateStatus (o : Consumer) (r : result Consumer).

(** *** Collaborators *)

Section Collaborators.

(** The state of everything outside the process. *)
Variable W : Type.

(** [jsmDeleter]: the handle of a remote consumer. *)
Record jsmDeleter := {
  Delete : W -> option error * W
}.

(** [jsmClient], the part used for consumers.  The options passed to
    [Connect] are [getNATSOptions(c.natsName, creds)]; they are
    represented by the two values they are computed from. *)
Record jsmClient := {
  Connect : string -> string -> Creds -> W -> option error * W;
  Close : W -> W;
  LoadConsumer : string -> string -> W -> result jsmDeleter * W;
  NewConsumer : string -> ConsumerConfig -> W -> result jsmDeleter * W
}.

(** [typed.ConsumerInterface], the two writes used. *)
Record ConsumerInterface := {
  Update : Consumer -> W -> result Consumer * W;
  UpdateStatus : Consumer -> W -> result Consumer * W
}.

(** The controller and what it reaches the outside through: its cache of
    consumers ([c.cnsLister.Consumers(ns).Get(name)], a read), the typed
    client of the store ([c.ji.Consumers(ns)]), the credential lookup
    ([getCreds] over [c.ki.Secrets(ns)], a function of the package declared
    outside [consumer.go]: what it answers is given by the world) and the
    clock [time.Now] reads, already formatted. *)
Record Controller := {
  natsName : string;
  cnsLister : string -> string -> W -> result Consumer;
  ji_Consumers : string -> ConsumerInterface;
  getCreds : string -> CredentialsSecret -> W -> result Creds * W;
  Now : W -> string
}.

End Collaborators.

Arguments Delete {W} j w.
Arguments Connect {W} j servers natsName creds w.
Arguments Close {W} j w.
Arguments LoadConsumer {W} j stream consumer w.
Arguments NewConsumer {W} j stream cfg w.
Arguments Update {W} c o w.
Arguments UpdateStatus {W} c o w.
Arguments natsName {W} c.
Arguments cnsLister {W} c ns name w.
Arguments ji_Consumers {W} c ns.
Arguments getCreds {W} c ns cs w.
Arguments Now {W} c w.

(** ** Reading a trace *)

(** A step that failed.  [LoadConsumer] reporting that the consumer is
    not there is an answer, not a failure. *)
Definition failed (e : Effect) : bool :=
  match e with
  | CallGetCreds _ _ err => isSome err
  | CallConnect _ _ _ err => isSome err
  | CallLoadConsumer _ _ (Some err) => negb (apiNotFound err)
  | CallNewConsumer _ _ err => isSome err
  | CallDelete err => isSome err
  | CallUpdate _ r => isSome (errOf r)
  | CallUpdateStatus _ r => isSome (errOf r)
  | _ => false
  end.

(** The error of the first step that failed. *)
Fixpoint firstFailure (tr : list Effect) : option error :=
  match tr with
  | [] => None
  | e :: rest =>
      if failed e then
        match e with
        | CallGetCreds _ _ err | CallConnect _ _ _ err | CallLoadConsumer _ _ err
        | CallNewConsumer _ _ err | CallDelete err => err
        | CallUpdate _ r | CallUpdateStatus _ r => errOf r
        | _ => None
        end
      else firstFailure rest
  end.

(** What the existence check found: the answer of the first
    [LoadConsumer] of the trace, when it is an answer. *)
Fixpoint remoteExists (tr : list Effect) : option bool :=
  match tr with
  | [] => None
  | CallLoadConsumer _ _ None :: _ => Some true
  | CallLoadConsumer _ _ (Some err) :: _ =>
      if apiNotFound err then Some false else None
  | _ :: rest => remoteExists rest
  end.

Inductive action := ActCreate | ActUpdate | ActDelete | ActNoop.

Definition actionOfReason (reason : string) : option action :=
  if String.eqb reason "Creating" then Some ActCreate
  else if String.eqb reason "Updating" then Some ActUpdate
  else if String.eqb reason "Deleting" then Some ActDelete
  else if String.eqb reason "Noop" then Some ActNoop
  else None.

(** The case of the [switch] a reconciliation entered: each case starts
    by emitting the event that names it. *)
Fixpoint selected (tr : list Effect) : option action :=
  match tr with
  | [] => None
  | Emit _ _ reason _ :: rest =>
      match actionOfReason reason with
      | Some a => Some a
      | None => selected rest
      end
  | _ :: rest => selected rest
  end.

(** The classification in the words of the spec (section 4.2, step 5):
    create wins over update wins over delete wins over no-op. *)
Definition spec_classify (exists_ deleting changed : bool) : action :=
  let create := negb exists_ && negb deleting && changed in
  let update := exists_ && negb deleting && changed in
  let delete := deleting in
  if create then ActCreate
  else if update then ActUpdate
  else if delete then ActDelete
  else ActNoop.

(** Calls that change the backend or the store. *)
Definition isMutation (e : Effect) : bool :=
  match e with
  | CallNewConsumer _ _ _ | CallDelete _ | CallUpdate _ _ | CallUpdateStatus _ _ => true
  | _ => false
  end.

Definition isWarning (e : Effect) : bool :=
  match e with
  | Emit _ EventTypeWarning _ _ => true
  | _ => false
  end.

(** The reasons of the events emitted, in order. *)
Definition eventReasons (tr : list Effect) : list string :=
  flat_map (fun e => match e with Emit _ _ reason _ => [reason] | _ => [] end) tr.

(** The objects whose status was written, in order. *)
Definition statusWrites (tr : list Effect) : list Consumer :=
  flat_map (fun e => match e with CallUpdateStatus o _ => [o] | _ => [] end) tr.

(** [prefixesSatisfy P acc tr]: every effect of [tr], together with what
    came before it ([acc], then the effects of [tr] before it), passes
    [P]. *)
Fixpoint prefixesSatisfy (P : list Effect -> Effect -> bool) (acc tr : list Effect) : bool :=
  match tr with
  | [] => true
  | e :: rest => P acc e && prefixesSatisfy P (acc ++ [e])%list rest
  end.

Definition isCreated (e : Effect) : bool :=
  match e with
  | CallNewConsumer _ _ None => true
  | _ => false
  end.

(** An [Update] write of an object that carries [key] has a successful
    [NewConsumer], and no failure, before it. *)
Definition createdBefore (key : string) (before : list Effect) (e : Effect) : bool :=
  match e with
  | CallUpdate o _ =>
      if existsb (String.eqb key) (Finalizers o)
      then existsb isCreated before && negb (existsb failed before)
      else true
  | _ => true
  end.

(** The first step that failed, with the effects before it. *)
Fixpoint firstFailed (before tr : list Effect) : option (list Effect * Effect) :=
  match tr with
  | [] => None
  | f :: rest =>
      if failed f then Some (before, f) else firstFailed (before ++ [f])%list rest
  end.

(** Calls on the connection to the backend. *)
Definition isBackendCall (e : Effect) : bool :=
  match e with
  | CallLoadConsumer _ _ _ | CallNewConsumer _ _ _ | CallDelete _ => true
  | _ => false
  end.

(** Calls that change the backend. *)
Definition isRemoteMutation (e : Effect) : bool :=
  match e with
  | CallNewConsumer _ _ _ | CallDelete _ => true
  | _ => false
  end.

Definition isLoad (e : Effect) : bool :=
  match e with
  | CallLoadConsumer _ _ _ => true
  | _ => false
  end.

Definition isUpdateWrite (e : Effect) : bool :=
  match e with
  | CallUpdate _ _ => true
  | _ => false
  end.

Definition isClose (e : Effect) : bool :=
  match e with
  | CallClose => true
  | _ => false
  end.

(** A [Connect] that succeeded. *)
Definition isConnected (e : Effect) : bool :=
  match e with
  | CallConnect _ _ _ None => true
  | _ => false
  end.

(** A call on the connection, or its [Close], has a [Connect] that
    succeeded and no [Close] before it. *)
Definition onOpenConnection (before : list Effect) (e : Effect) : bool :=
  if isBackendCall e || isClose e
  then existsb isConnected before && negb (existsb isClose before)
  else true.

(** The sequences of event reasons a reconciliation can emit. *)
Definition eventSequences : list (list string) :=
  [ [];
    ["Connecting"];
    ["Connecting"; "Connected"];
    ["Connecting"; "Connected"; "Creating"];
    ["Connecting"; "Connected"; "Creating"; "Created"];
    ["Connecting"; "Connected"; "Updating"];
    ["Connecting"; "Connected"; "Deleting"];
    ["Connecting"; "Connected"; "Noop"] ].

(** ** Test doubles

    The doubles the tests of the package run [processConsumer] against;
    their world is [unit]. *)

(** [mockJsmClient]: every method answers with the error it was built
    with. *)
Record mockJsmClient := {
  connectErr : option error;
  loadConsumerErr : option error;
  newConsumerErr : option error;
  deleteErr : option error
}.

Definition answer {A : Type} (a : A) (err : option error) : result A :=
  match err with
  | Some e => Err e
  | None => Ok a
  end.

Definition mockDeleter (m : mockJsmClient) : jsmDeleter unit :=
  {| Delete := fun w => (deleteErr m, w) |}.

Definition mockClient (m : mockJsmClient) : jsmClient unit :=
  {| Connect := fun _ _ _ w => (connectErr m, w);
     Close := fun w => w;
     LoadConsumer := fun _ _ w => (answer (mockDeleter m) (loadConsumerErr m), w);
     NewConsumer := fun _ _ w => (answer (mockDeleter m) (newConsumerErr m), w) |}.

(** The fake clientset with the reactor [updateObject]: a write answers
    with the object it was given, or with the error it was built with. *)
Definition fakeConsumers (updateErr statusErr : option error) : ConsumerInterface unit :=
  {| Update := fun o w => (answer o updateErr, w);
     UpdateStatus := fun o w => (answer o statusErr, w) |}.

Definition notFoundInStore : error :=
  BaseError (StatusError "NotFound") "consumer not found".

(** A controller over a store holding [store], with no secrets. *)
Definition fakeController (store : list Consumer) (credsErr updateErr statusErr : option error)
  : Controller unit :=
  {| natsName := "";
     cnsLister := fun ns name _ =>
       match find (fun o => String.eqb (Namespace o) ns && String.eqb (Name o) name) store with
       | Some o => Ok o
       | None => Err notFoundInStore
       end;
     ji_Consumers := fun _ => fakeConsumers updateErr statusErr;
     getCreds := fun _ _ w => (answer "" credsErr, w);
     Now := fun _ => "2020-09-16T00:42:03Z" |}.

Definition noErrors : mockJsmClient :=
  {| connectErr := None; loadConsumerErr := None; newConsumerErr := None; deleteErr := None |}.

(** [jsmapi.ApiError{Code: 404}] *)
Definition notFoundErr : error := BaseError (ApiError 404) "unknown JetStream 404 Error".

(** The backend of the tests that create: it has no consumer. *)
Definition absentOnBackend : mockJsmClient :=
  {| connectErr := None; loadConsumerErr := Some notFoundErr;
     newConsumerErr := None; deleteErr := None |}.

(** The backend of the test [process error]. *)
Definition unreachableBackend : mockJsmClient :=
  {| connectErr := Some (BaseError PlainError "nats connect failed");
     loadConsumerErr := None; newConsumerErr := None; deleteErr := None |}.

Definition testSpec : ConsumerSpec :=
  {| DurableName := "my-consumer"; StreamName := ""; Servers := [];
     CredentialsSecret_ := {| cs_Name := ""; cs_Key := "" |} |}.

(** The objects the tests put in the store. *)
Definition newConsumerObject : Consumer :=
  {| Namespace := "default"; Name := "my-consumer";
     Finalizers := [consumerFinalizerKey]; Generation := 1;
     DeletionTimestamp := None; Spec := testSpec;
     Status_ := {| ObservedGeneration := 0; Conditions := [] |} |}.

Definition changedConsumerObject : Consumer :=
  {| Namespace := "default"; Name := "my-consumer";
     Finalizers := [consumerFinalizerKey]; Generation := 2;
     DeletionTimestamp := None; Spec := testSpec;
     Status_ := {| ObservedGeneration := 1; Conditions := [] |} |}.

Definition deletingConsumerObject : Consumer :=
  {| Namespace := "default"; Name := "my-consumer";
     Finalizers := [consumerFinalizerKey]; Generation := 0;
     DeletionTimestamp := Some 1600216923%Z; Spec := testSpec;
     Status_ := {| ObservedGeneration := 0; Conditions := [] |} |}.

Definition reconciledConsumerObject : Consumer :=
  {| Namespace := "default"; Name := "my-consumer";
     Finalizers := []; Generation := 1;
     DeletionTimestamp := None; Spec := testSpec;
     Status_ := {| ObservedGeneration := 1; Conditions := [] |} |}.

(** The ready condition after a creation and after a failed connection. *)
Definition readyCreated : Condition :=
  {| c_Type := "Ready"; c_Status := ConditionTrue;
     c_LastTransitionTime := "2020-09-16T00:42:03Z";
     c_Reason := "Created";
     c_Message := "Consumer successfully created" |}.

Definition readyErrored : Condition :=
  {| c_Type := "Ready"; c_Status := ConditionFalse;
     c_LastTransitionTime := "2020-09-16T00:42:04Z";
     c_Reason := "Errored";
     c_Message := "nats connect failed" |}.

(** A backend without the consumer on which [NewConsumer] fails. *)
Definition rejectingBackend : mockJsmClient :=
  {| connectErr := None; loadConsumerErr := Some notFoundErr;
     newConsumerErr := Some (BaseError PlainError "invalid consumer configuration");
     deleteErr := None |}.

(** The error of a write on a stale object. *)
Definition conflict : error :=
  BaseError (StatusError "Conflict") "the object has been modified".

(** An in-memory backend and store: whether the consumer is on the
    backend, and the object the store holds.  [NewConsumer] puts the
    consumer there and [Delete] takes it away; [LoadConsumer] answers
    from it.  A write that is not refused is kept by the store: [Update]
    keeps the object written, [UpdateStatus] its status. *)
Record memWorld := {
  present : bool;
  object : Consumer
}.

Definition memDeleter : jsmDeleter memWorld :=
  {| Delete := fun w => (None, {| present := false; object := object w |}) |}.

Definition memClient : jsmClient memWorld :=
  {| Connect := fun _ _ _ w => (None, w);
     Close := fun w => w;
     LoadConsumer := fun _ _ w =>
       if present w then (Ok memDeleter, w) else (Err notFoundErr, w);
     NewConsumer := fun _ _ w =>
       (Ok memDeleter, {| present := true; object := object w |}) |}.

Definition memConsumers (updateErr statusErr : option error)
  : ConsumerInterface memWorld :=
  {| Update := fun o w =>
       match updateErr with
       | Some e => (Err e, w)
       | None => (Ok o, {| present := present w; object := o |})
       end;
     UpdateStatus := fun o w =>
       match statusErr with
       | Some e => (Err e, w)
       | None =>
           (Ok (SetStatus (object w) (Status_ o)),
            {| present := present w; object := SetStatus (object w) (Status_ o) |})
       end |}.

Definition memController (updateErr statusErr : option error) : Controller memWorld :=
  {| natsName := "";
     cnsLister := fun ns name w =>
       if String.eqb (Namespace (object w)) ns && String.eqb (Name (object w)) name
       then Ok (object w)
       else Err notFoundInStore;
     ji_Consumers := fun _ => memConsumers updateErr statusErr;
     getCreds := fun _ _ w => (Ok "", w);
     Now := fun _ => "2020-09-16T00:42:03Z" |}.

(** A token for [streamFinalizerKey] and a text for [readyCondType], used
    where a run is evaluated: the text of the two constants is not among
    the sources. *)
Definition aStreamFinalizerKey : string := "streamfinalizer.jetstream.nats.io".
Definition aReadyCondType : string := "Ready".

(** [%q] on a string that needs no escaping: the string between two
    quotation marks. *)
Definition quotePlain (s : string) : string :=
  String (Ascii.ascii_of_nat 34) (s ++ String (Ascii.ascii_of_nat 34) EmptyString).

Section Reconcile.

Context {W : Type}.

(** [streamFinalizerKey] and [readyCondType] are constants of the package
    declared outside [consumer.go]; their text is not among the sources. *)
Variable streamFinalizerKey : string.
Variable readyCondType : string.

(** [fmt.Sprintf] with the verb [%q] on one string. *)
Variable quote : string -> string.

(** *** The monad of world and trace *)

Definition M (A : Type) : Type := W * list Effect -> A * (W * list Effect).

Definition ret {A : Type} (a : A) : M A := fun s => (a, s).

Definition bind {A B : Type} (m : M A) (f : A -> M B) : M B :=
  fun s => let (a, s') := m s in f a s'.

Notation "x <- c1 ;; c2" := (bind c1 (fun x => c2))
  (at level 100, c1 at next level, right associativity).
Notation "c1 ;;; c2" := (bind c1 (fun _ => c2))
  (at level 100, right associativity).

(** A call to the outside: run it on the world, record it. *)
Definition call {A : Type} (op : W -> A * W) (ev : A -> Effect) : M A :=
  fun s => let (a, w') := op (fst s) in (a, (w', (snd s ++ [ev a])%list)).

Definition emit (e : Effect) : M unit :=
  fun s => (tt, (fst s, (snd s ++ [e])%list)).

Definition readWorld {A : Type} (f : W -> A) : M A :=
  fun s => (f (fst s), s).

(** Modelled from the spec: [normalEvent] and [warningEvent] are methods
    of the controller declared outside [consumer.go].  Section 6: an event
    is [{object, EventType(Normal|Warning), Reason, Message}]. *)
Definition normalEvent (o : Consumer) (reason message : string) : M unit :=
  emit (Emit o EventTypeNormal reason message).

(** Modelled from the spec: [warningEvent] is a method of the controller
    declared outside [consumer.go]; as [normalEvent], with the event type
    Warning. *)
Definition warningEvent (o : Consumer) (reason message : string) : M unit :=
  emit (Emit o EventTypeWarning reason message).

(** *** consumer.go *)

Definition consumerExists (c : jsmClient W) (stream consumer : string)
  : M (bool * option error) :=
  r <- call (LoadConsumer c stream consumer)
            (fun r => CallLoadConsumer stream consumer (errOf r)) ;;
  match r with
  | Err err =>
      if apiNotFound err then ret (false, None)
      else ret (false, Some (Errorf "failed to check if consumer exists: " err))
  | Ok _ => ret (true, None)
  end.

Definition createConsumer (c : jsmClient W) (spec : ConsumerSpec) : M (option error) :=
  r <- call (NewConsumer c (StreamName spec) {| Durable := DurableName spec |})
            (fun r => CallNewConsumer (StreamName spec)
                        {| Durable := DurableName spec |} (errOf r)) ;;
  match errOf r with
  | Some err =>
      ret (Some (Errorf ("failed to create consumer " ++ quote (DurableName spec)
                         ++ " on stream " ++ quote (StreamName spec) ++ ": ") err))
  | None => ret None
  end.

Definition deleteConsumer (c : jsmClient W) (stream consumer : string)
  : M (option error) :=
  let wrap err :=
    Errorf ("failed to delete consumer " ++ quote consumer
            ++ " on stream " ++ quote stream ++ ": ") err in
  r <- call (LoadConsumer c stream consumer)
            (fun r => CallLoadConsumer stream consumer (errOf r)) ;;
  match r with
  | Err err =>
      if apiNotFound err then ret None else ret (Some (wrap err))
  | Ok cn =>
      derr <- call (Delete cn) CallDelete ;;
      match derr with
      | Some err => ret (Some (wrap err))
      | None => ret None
      end
  end.

(** [setConsumerOK] works on a deep copy of [s]. *)
Definition setConsumerOK (c : Controller W) (s : Consumer) (i : ConsumerInterface W)
  : M (result Consumer) :=
  now <- readWorld (Now c) ;;
  let sc := SetStatus s
    {| ObservedGeneration := Generation s;
       Conditions := upsertCondition (Conditions (Status_ s))
         {| c_Type := readyCondType;
            c_Status := ConditionTrue;
            c_LastTransitionTime := now;
            c_Reason := "Created";
            c_Message := "Consumer successfully created" |} |} in
  r <- call (UpdateStatus i sc) (CallUpdateStatus sc) ;;
  match r with
  | Err err =>
      ret (Err (Errorf ("failed to set consumer " ++ quote (DurableName (Spec s))
                        ++ " status: ") err))
  | Ok res => ret (Ok res)
  end.

(** [setConsumerErrored] is only called with a non-nil error here; the
    guard [err == nil] of the source is the [None] case. *)
Definition setConsumerErrored (c : Controller W) (s : Consumer) (sif : ConsumerInterface W)
  (err : option error) : M (result Consumer) :=
  match err with
  | None => ret (Ok s)
  | Some e =>
      now <- readWorld (Now c) ;;
      let sc := SetStatus s
        {| ObservedGeneration := ObservedGeneration (Status_ s);
           Conditions := upsertCondition (Conditions (Status_ s))
             {| c_Type := readyCondType;
                c_Status := ConditionFalse;
                c_LastTransitionTime := now;
                c_Reason := "Errored";
                c_Message := Error e |} |} in
      r <- call (UpdateStatus sif sc) (CallUpdateStatus sc) ;;
      match r with
      | Err err' => ret (Err (Errorf "failed to set consumer errored status: " err'))
      | Ok res => ret (Ok res)
      end
  end.

(** [setConsumerFinalizer] and [clearConsumerFinalizer] change the object
    [s] points to before they write it: the first component of the value
    is that object as the caller sees it afterwards. *)
Definition setConsumerFinalizer (s : Consumer) (i : ConsumerInterface W)
  : M (Consumer * result Consumer) :=
  let s' := SetFinalizers s (addFinalizer (Finalizers s) streamFinalizerKey) in
  r <- call (Update i s') (CallUpdate s') ;;
  match r with
  | Err err =>
      ret (s', Err (Errorf ("failed to set finalizers for consumer "
                            ++ quote (DurableName (Spec s')) ++ ": ") err))
  | Ok res => ret (s', Ok res)
  end.

Definition clearConsumerFinalizer (s : Consumer) (i : ConsumerInterface W)
  : M (Consumer * result Consumer) :=
  let s' := SetFinalizers s (removeFinalizer (Finalizers s) streamFinalizerKey) in
  r <- call (Update i s') (CallUpdate s') ;;
  match r with
  | Err err =>
      ret (s', Err (Errorf ("failed to clear finalizers for consumer "
                            ++ quote (DurableName (Spec s')) ++ ": ") err))
  | Ok res => ret (s', Ok res)
  end.

(** The [switch] of [processConsumer] and what precedes it after
    [defer jsmc.Close()].  The value is the object the variable [cns]
    refers to when the function returns, and the returned error. *)
Definition reconcileConnected (c : Controller W) (jsmc : jsmClient W)
  (cns : Consumer) (ifc : ConsumerInterface W) : M (Consumer * option error) :=
  let spec := Spec cns in
  normalEvent cns "Connected" "Connected to NATS Server" ;;;
  let deleteOK := isSome (DeletionTimestamp cns) in
  let newGeneration := negb (Generation cns =? ObservedGeneration (Status_ cns))%Z in
  x <- consumerExists jsmc (StreamName spec) (DurableName spec) ;;
  let (consumerOK, err) := x in
  match err with
  | Some e => ret (cns, Some e)
  | None =>
      let updateOK := consumerOK && negb deleteOK && newGeneration in
      let createOK := negb consumerOK && negb deleteOK && newGeneration in
      if createOK then
        normalEvent cns "Creating"
          ("Creating consumer " ++ quote (DurableName spec)
           ++ " on stream " ++ quote (StreamName spec)) ;;;
        cerr <- createConsumer jsmc spec ;;
        match cerr with
        | Some e => ret (cns, Some e)
        | None =>
            y <- setConsumerFinalizer cns ifc ;;
            let (cns1, r) := y in
            match r with
            | Err e => ret (cns1, Some e)
            | Ok res =>
                let cns2 := res in
                r2 <- setConsumerOK c cns2 ifc ;;
                match r2 with
                | Err e => ret (cns2, Some e)
                | Ok _ =>
                    normalEvent cns2 "Created"
                      ("Created consumer " ++ quote (DurableName spec)
                       ++ " on stream " ++ quote (StreamName spec)) ;;;
                    ret (cns2, None)
                end
            end
        end
      else if updateOK then
        warningEvent cns "Updating"
          ("Consumer updates (" ++ quote (DurableName spec) ++ " on "
           ++ quote (StreamName spec) ++ ") are not allowed, recreate to update") ;;;
        ret (cns, None)
      else if deleteOK then
        normalEvent cns "Deleting"
          ("Deleting consumer " ++ quote (DurableName spec)
           ++ " on stream " ++ quote (StreamName spec)) ;;;
        derr <- deleteConsumer jsmc (StreamName spec) (DurableName spec) ;;
        match derr with
        | Some e => ret (cns, Some e)
        | None =>
            y <- clearConsumerFinalizer cns ifc ;;
            let (cns1, r) := y in
            match r with
            | Err e => ret (cns1, Some e)
            | Ok _ => ret (cns1, None)
            end
        end
      else
        warningEvent cns "Noop"
          ("Nothing done for consumer " ++ quote (DurableName spec)) ;;;
        ret (cns, None)
  end.

(** [processConsumer] from the credential lookup on, with
    [defer jsmc.Close()] run when the connected part returns. *)
Definition reconcileFound (c : Controller W) (ns : string) (jsmc : jsmClient W)
  (cns : Consumer) (ifc : ConsumerInterface W) : M (Consumer * option error) :=
  let spec := Spec cns in
  r <- call (getCreds c ns (CredentialsSecret_ spec))
            (fun r => CallGetCreds ns (CredentialsSecret_ spec) (errOf r)) ;;
  match r with
  | Err e => ret (cns, Some e)
  | Ok creds =>
      normalEvent cns "Connecting" "Connecting to NATS Server" ;;;
      cerr <- call (Connect jsmc (String.concat "," (Servers spec)) (natsName c) creds)
                   (CallConnect (String.concat "," (Servers spec)) (natsName c) creds) ;;
      match cerr with
      | Some e => ret (cns, Some e)
      | None =>
          x <- reconcileConnected c jsmc cns ifc ;;
          call (fun w => (tt, Close jsmc w)) (fun _ => CallClose) ;;;
          ret x
      end
  end.

(** The second deferred function of [processConsumer]: on an error, write
    the errored status of the object [cns] refers to, and join the error
    of that write to the one returned. *)
Definition deferErrored (c : Controller W) (ifc : ConsumerInterface W)
  (x : Consumer * option error) : M (option error) :=
  let (cns, err) := x in
  match err with
  | None => ret None
  | Some e =>
      r <- setConsumerErrored c cns ifc (Some e) ;;
      match r with
      | Err serr => ret (Some (Errorf (Error e ++ ": ") serr))
      | Ok _ => ret (Some e)
      end
  end.

(** The first deferred function of [processConsumer]. *)
Definition deferWrap (err : option error) : option error :=
  match err with
  | Some e => Some (Errorf "failed to process consumer: " e)
  | None => None
  end.

Definition processConsumer (c : Controller W) (ns name : string) (jsmc : jsmClient W)
  : M (option error) :=
  got <- readWorld (cnsLister c ns name) ;;
  match got with
  | Err err =>
      if IsNotFound err then ret (deferWrap None) else ret (deferWrap (Some err))
  | Ok cns =>
      let ifc := ji_Consumers c ns in
      x <- reconcileFound c ns jsmc cns ifc ;;
      err <- deferErrored c ifc x ;;
      ret (deferWrap err)
  end.

(** One reconciliation from world [w]: the returned error, the world and
    the trace of what was done. *)
Definition reconcile (c : Controller W) (ns name : string) (jsmc : jsmClient W) (w : W)
  : option error * (W * list Effect) :=
  processConsumer c ns name jsmc (w, []).

Definition returned (c : Controller W) (ns name : string) (jsmc : jsmClient W) (w : W)
  : option error :=
  fst (reconcile c ns name jsmc w).

Definition traceOf (c : Controller W) (ns name : string) (jsmc : jsmClient W) (w : W)
  : list Effect :=
  snd (snd (reconcile c ns name jsmc w)).

(** The object [setConsumerErrored] writes for [s] at time [t] on the
    error [e]: [s] with the ready condition, status false, reason
    [Errored], message the text of [e], upserted into its conditions. *)
Definition erroredStatus (s : Consumer) (t : string) (e : error) : Consumer :=
  SetStatus s
    {| ObservedGeneration := ObservedGeneration (Status_ s);
       Conditions := upsertCondition (Conditions (Status_ s))
         {| c_Type := readyCondType;
            c_Status := ConditionFalse;
            c_LastTransitionTime := t;
            c_Reason := "Errored";
            c_Message := Error e |} |}.

(** The error [processConsumer] is left with after the errored status
    was written with answer [r]: the error [e] itself, or [e] joined with
    the error of the write. *)
Definition joinWriteError (e : error) (r : result Consumer) : error :=
  match r with
  | Ok _ => e
  | Err serr =>
      Errorf (Error e ++ ": ") (Errorf "failed to set consumer errored status: " serr)
  end.

(** The object [setConsumerOK] writes for [s] at time [t]: [s] with its
    generation as observed generation and the ready condition, status
    true, reason [Created], upserted into its conditions. *)
Definition okStatus (s : Consumer) (t : string) : Consumer :=
  SetStatus s
    {| ObservedGeneration := Generation s;
       Conditions := upsertCondition (Conditions (Status_ s))
         {| c_Type := readyCondType;
            c_Status := ConditionTrue;
            c_LastTransitionTime := t;
            c_Reason := "Created";
            c_Message := "Consumer successfully created" |} |}.

(** The context under which the error of the failed step [f] reaches
    [processConsumer], [before] being the effects before [f]: none for the
    credential lookup and for [Connect], whose errors are returned as they
    are; for the others, the context the function making the call adds. *)
Definition operationContext (cns : Consumer) (before : list Effect) (f : Effect)
  : option string :=
  let spec := Spec cns in
  let onConsumer what :=
    what ++ quote (DurableName spec) ++ " on stream " ++ quote (StreamName spec) ++ ": " in
  match f with
  | CallLoadConsumer _ _ _ =>
      if existsb isLoad before
      then Some (onConsumer "failed to delete consumer ")
      else Some "failed to check if consumer exists: "
  | CallNewConsumer _ _ _ => Some (onConsumer "failed to create consumer ")
  | CallDelete _ => Some (onConsumer "failed to delete consumer ")
  | CallUpdate _ _ =>
      if isSome (DeletionTimestamp cns)
      then Some ("failed to clear finalizers for consumer "
                 ++ quote (DurableName spec) ++ ": ")
      else Some ("failed to set finalizers for consumer "
                 ++ quote (DurableName spec) ++ ": ")
  | CallUpdateStatus o _ =>
      Some ("failed to set consumer " ++ quote (DurableName (Spec o)) ++ " status: ")
  | _ => None
  end.

(** ** Properties of the helpers *)

Lemma existsb_eqb_In (key : string) (fs : list string) :
  existsb (String.eqb key) fs = true <-> In key fs.
Proof.
  rewrite existsb_exists. split.
  - intros [x [Hin Heq]]. apply String.eqb_eq in Heq. now subst.
  - intros Hin. exists key. split; [assumption | apply String.eqb_refl].
Qed.

Lemma addFinalizer_In (fs : list string) (key : string) :
  In key (addFinalizer fs key).
Proof.
  unfold addFinalizer. destruct (existsb (String.eqb key) fs) eqn:E.
  - now apply existsb_eqb_In.
  - apply in_or_app. right. now left.
Qed.

Lemma addFinalizer_other (fs : list string) (key k : string) :
  k <> key -> (In k (addFinalizer fs key) <-> In k fs).
Proof.
  intros Hne. unfold addFinalizer.
  destruct (existsb (String.eqb key) fs); [tauto |].
  rewrite in_app_iff. simpl. split; [| tauto].
  intros [H | [H | []]]; [assumption | congruence].
Qed.

Lemma removeFinalizer_In (fs : list string) (key k : string) :
  In k (removeFinalizer fs key) <-> In k fs /\ k <> key.
Proof.
  unfold removeFinalizer. rewrite filter_In, negb_true_iff, String.eqb_neq. tauto.
Qed.

Lemma removeFinalizer_not_In (fs : list string) (key : string) :
  existsb (String.eqb key) (removeFinalizer fs key) = false.
Proof.
  destruct (existsb (String.eqb key) (removeFinalizer fs key)) eqn:E; [| reflexivity].
  apply existsb_eqb_In, removeFinalizer_In in E. now destruct E.
Qed.

Lemma removeFinalizer_addFinalizer (fs : list string) (key : string) :
  removeFinalizer (addFinalizer fs key) key = removeFinalizer fs key.
Proof.
  unfold addFinalizer. destruct (existsb (String.eqb key) fs); [reflexivity |].
  unfold removeFinalizer. rewrite filter_app. simpl.
  rewrite String.eqb_refl. simpl. apply app_nil_r.
Qed.

Lemma removeFinalizer_absent (fs : list string) (key : string) :
  ~ In key fs -> removeFinalizer fs key = fs.
Proof.
  unfold removeFinalizer. induction fs as [| f fs IH]; simpl; intros Hn; [reflexivity |].
  destruct (String.eqb_spec f key) as [-> | Hne]; simpl.
  - exfalso. apply Hn. now left.
  - f_equal. apply IH. intros Hin. apply Hn. now right.
Qed.

Lemma upsertCondition_In (cs : list Condition) (next : Condition) :
  In next (upsertCondition cs next).
Proof.
  induction cs as [| c cs IH]; simpl; [now left |].
  destruct (String.eqb (c_Type c) (c_Type next)); simpl; tauto.
Qed.

Lemma upsertCondition_types (cs : list Condition) (next : Condition) (ty : string) :
  In ty (map c_Type (upsertCondition cs next)) ->
  ty = c_Type next \/ In ty (map c_Type cs).
Proof.
  induction cs as [| c cs IH]; simpl.
  - intros [H | []]. now left.
  - destruct (String.eqb_spec (c_Type c) (c_Type next)) as [E | E]; simpl.
    + intros [H | H]; [now left | right; now right].
    + intros [H | H]; [right; now left |].
      destruct (IH H) as [H' | H']; [now left | right; now right].
Qed.

Lemma upsertCondition_absent (cs : list Condition) (next : Condition) :
  (forall c, In c cs -> c_Type c <> c_Type next) ->
  upsertCondition cs next = (cs ++ [next])%list.
Proof.
  induction cs as [| c cs IH]; simpl; intros Hn; [reflexivity |].
  destruct (String.eqb_spec (c_Type c) (c_Type next)) as [E | E].
  - exfalso. apply (Hn c); [now left | assumption].
  - f_equal. apply IH. intros d Hd. apply Hn. now right.
Qed.

Lemma upsertCondition_idempotent (cs : list Condition) (next : Condition) :
  upsertCondition (upsertCondition cs next) next = upsertCondition cs next.
Proof.
  induction cs as [| c cs IH]; simpl.
  - now rewrite String.eqb_refl.
  - destruct (String.eqb (c_Type c) (c_Type next)) eqn:E; simpl.
    + now rewrite String.eqb_refl.
    + rewrite E. now f_equal.
Qed.

(** C10.  Condition upsert on a list with at most one entry per [Type]:
    an entry whose [Type] is that of the new condition is replaced where
    it stands; when there is none the new condition is appended; the
    result has no two entries of one [Type]; and upserting the same
    condition a second time changes neither the length nor the list. *)
Theorem upsertCondition_replace_or_append (cs : list Condition) (next : Condition)
  (Hone : NoDup (map c_Type cs)) :
  (forall pre c post, cs = (pre ++ c :: post)%list -> c_Type c = c_Type next ->
     upsertCondition cs next = (pre ++ next :: post)%list)
  /\ ((forall c, In c cs -> c_Type c <> c_Type next) ->
      upsertCondition cs next = (cs ++ [next])%list)
  /\ NoDup (map c_Type (upsertCondition cs next))
  /\ length (upsertCondition (upsertCondition cs next) next)
     = length (upsertCondition cs next)
  /\ upsertCondition (upsertCondition cs next) next = upsertCondition cs next.
Proof.
  repeat split.
  - induction cs as [| d cs IH]; intros pre c post Hcs Hty.
    + destruct pre; discriminate.
    + inversion Hone as [| ? ? Hnotin Hrest]; subst.
      destruct pre as [| p pre]; simpl in Hcs; inversion Hcs; subst; simpl.
      * rewrite Hty, String.eqb_refl. reflexivity.
      * destruct (String.eqb_spec (c_Type p) (c_Type next)) as [E | E].
        -- exfalso. apply Hnotin. rewrite E, <- Hty.
           apply in_map, in_or_app. right. now left.
        -- f_equal. now apply (IH Hrest pre c post).
  - apply upsertCondition_absent.
  - induction cs as [| d cs IH]; simpl.
    + constructor; [intros [] | constructor].
    + inversion Hone as [| ? ? Hnotin Hrest]; subst.
      destruct (String.eqb_spec (c_Type d) (c_Type next)) as [E | E]; simpl.
      * constructor; [now rewrite <- E | assumption].
      * constructor; [| now apply IH].
        intros Hin. apply upsertCondition_types in Hin.
        destruct Hin as [Hin | Hin]; [now apply E | now apply Hnotin].
  - now rewrite upsertCondition_idempotent.
  - apply upsertCondition_idempotent.
Qed.

(** ** The existence check *)

Lemma apiNotFound_spec (e : error) :
  apiNotFound e = true <->
  exists code, As_ApiError e = Some code /\ NotFoundError code = true.
Proof.
  unfold apiNotFound. destruct (As_ApiError e) as [code |].
  - split; [intros H; now exists code | intros [c [Hc H]]; now inversion Hc; subst].
  - split; [discriminate | intros [c [Hc _]]; discriminate].
Qed.

(** C8.  [consumerExists] answers [(false, nil)] exactly when
    [LoadConsumer] failed with an error in whose chain [errors.As] finds
    an [ApiError] whose [NotFoundError()] is true; it answers
    [(true, nil)] when [LoadConsumer] succeeded; every other error of
    [LoadConsumer] is returned, wrapped with the context of the check. *)
Theorem consumerExists_maps_not_found (c : jsmClient W) (stream consumer : string)
  (w : W) (tr : list Effect) :
  let load := fst (LoadConsumer c stream consumer w) in
  let out := fst (consumerExists c stream consumer (w, tr)) in
  (out = (false, None) <->
     exists e code, errOf load = Some e /\ As_ApiError e = Some code
                    /\ NotFoundError code = true)
  /\ (errOf load = None -> out = (true, None))
  /\ (forall e, errOf load = Some e -> apiNotFound e = false ->
        out = (false, Some (Errorf "failed to check if consumer exists: " e))).
Proof.
  unfold consumerExists, bind, call, ret. simpl.
  destruct (LoadConsumer c stream consumer w) as [[cn | e] w']; simpl.
  - repeat split; try discriminate.
    intros [e [code [H _]]]. discriminate.
  - destruct (apiNotFound e) eqn:E; simpl; repeat split; try discriminate.
    + intros _. apply apiNotFound_spec in E. destruct E as [code [H1 H2]].
      now exists e, code.
    + intros e' He'. inversion He'; subst. congruence.
    + intros [e' [code [He' [H1 H2]]]]. inversion He'; subst.
      assert (apiNotFound e' = true) by (apply apiNotFound_spec; now exists code).
      congruence.
    + intros e' He' _. now inversion He'; subst.
Qed.

(** ** A key that is not in the cache *)

(** C9.  When the lister finds no object for the key (its error is a
    not-found status error), [processConsumer] returns [nil]: the world is
    untouched and the trace is empty, so nothing was connected to, written
    or emitted.  Any other error of the lister is returned, wrapped, and
    again nothing else happens. *)
Theorem processConsumer_absent_from_cache (c : Controller W) (ns name : string)
  (jsmc : jsmClient W) (w : W) (e : error)
  (Hget : cnsLister c ns name w = Err e) :
  (IsNotFound e = true -> reconcile c ns name jsmc w = (None, (w, [])))
  /\ (IsNotFound e = false ->
      reconcile c ns name jsmc w
      = (Some (Errorf "failed to process consumer: " e), (w, []))).
Proof.
  unfold reconcile, processConsumer, bind, readWorld, ret. simpl.
  rewrite Hget. split; intros ->; reflexivity.
Qed.

(** ** Running a reconciliation *)

Local Arguments String.append : simpl never.
Local Arguments String.concat : simpl never.

Ltac unfold_run :=
  unfold traceOf, returned, reconcile, processConsumer, reconcileFound,
    reconcileConnected, deferErrored, deferWrap, consumerExists, createConsumer,
    deleteConsumer, setConsumerFinalizer, clearConsumerFinalizer, setConsumerOK,
    setConsumerErrored, normalEvent, warningEvent, call, emit, readWorld, bind, ret
    in *.

(** One more call of the run: case analysis on what the collaborator
    answered. *)
Ltac next_call :=
  match goal with
  | |- context [getCreds ?a1 ?a2 ?a3 ?a4] =>
      destruct (getCreds a1 a2 a3 a4) as [[?creds | ?e] ?w]
  | |- context [Connect ?a1 ?a2 ?a3 ?a4 ?a5] =>
      destruct (Connect a1 a2 a3 a4 a5) as [[?e |] ?w]
  | |- context [LoadConsumer ?a1 ?a2 ?a3 ?a4] =>
      destruct (LoadConsumer a1 a2 a3 a4) as [[?cn | ?e] ?w]
  | |- context [NewConsumer ?a1 ?a2 ?a3 ?a4] =>
      destruct (NewConsumer a1 a2 a3 a4) as [[?cn | ?e] ?w]
  | |- context [Delete ?a1 ?a2] =>
      destruct (Delete a1 a2) as [[?e |] ?w]
  | |- context [Update ?a1 ?a2 ?a3] =>
      destruct (Update a1 a2 a3) as [[?res | ?e] ?w]
  | |- context [UpdateStatus ?a1 ?a2 ?a3] =>
      destruct (UpdateStatus a1 a2 a3) as [[?res | ?e] ?w]
  | H : apiNotFound ?a1 = _ |- context [apiNotFound ?a1] => rewrite H
  | |- context [apiNotFound ?a1] => destruct (apiNotFound a1) eqn:?
  end; cbn.

(** Names the run, so that the case analysis works on one copy of it. *)
Ltac name_run c ns name jsmc w :=
  unfold traceOf, returned in *;
  let run := fresh "run" in
  let Hrun := fresh "Hrun" in
  remember (reconcile c ns name jsmc w) as run eqn:Hrun;
  revert Hrun; unfold_run; cbn.

(** The run is known: put it back and evaluate what is said about it. *)
Ltac end_run :=
  intros ->; cbn;
  repeat match goal with
         | H : apiNotFound ?e = _ |- context [apiNotFound ?e] => rewrite H
         end;
  cbn.

(** As [next_call], keeping what the collaborator answered and the
    world it left as an equation. *)
Ltac next_call_eq :=
  match goal with
  | |- context [getCreds ?a1 ?a2 ?a3 ?a4] =>
      destruct (getCreds a1 a2 a3 a4) as [[?creds | ?e] ?w] eqn:?
  | |- context [Connect ?a1 ?a2 ?a3 ?a4 ?a5] =>
      destruct (Connect a1 a2 a3 a4 a5) as [[?e |] ?w] eqn:?
  | |- context [LoadConsumer ?a1 ?a2 ?a3 ?a4] =>
      destruct (LoadConsumer a1 a2 a3 a4) as [[?cn | ?e] ?w] eqn:?
  | |- context [NewConsumer ?a1 ?a2 ?a3 ?a4] =>
      destruct (NewConsumer a1 a2 a3 a4) as [[?cn | ?e] ?w] eqn:?
  | |- context [Delete ?a1 ?a2] =>
      destruct (Delete a1 a2) as [[?e |] ?w] eqn:?
  | |- context [Update ?a1 ?a2 ?a3] =>
      destruct (Update a1 a2 a3) as [[?res | ?e] ?w] eqn:?
  | |- context [UpdateStatus ?a1 ?a2 ?a3] =>
      destruct (UpdateStatus a1 a2 a3) as [[?res | ?e] ?w] eqn:?
  | H : apiNotFound ?a1 = _ |- context [apiNotFound ?a1] => rewrite H
  | |- context [apiNotFound ?a1] => destruct (apiNotFound a1) eqn:?
  end; cbn.

Lemma Zeqb_false (a b : Z) : a <> b -> (a =? b)%Z = false.
Proof. apply Z.eqb_neq. Qed.

(** C3.  A consumer that is not being deleted, whose generation differs
    from the observed one and that exists on the backend: the
    reconciliation looks up credentials, connects, loads the consumer,
    emits the warning event [Updating] and closes the connection, and
    returns no error.  It calls nothing that changes the backend or the
    store, so the observed generation stays as it was, and [Updating] is
    its only warning event. *)
Theorem update_of_existing_consumer_only_warns (c : Controller W) (ns name : string)
  (jsmc : jsmClient W) (w : W) (cns : Consumer)
  (Hget : cnsLister c ns name w = Ok cns)
  (Hlive : DeletionTimestamp cns = None)
  (Hchanged : Generation cns <> ObservedGeneration (Status_ cns))
  (Hexists : remoteExists (traceOf c ns name jsmc w) = Some true) :
  let spec := Spec cns in
  let servers := String.concat "," (Servers spec) in
  let updating :=
    Emit cns EventTypeWarning "Updating"
      ("Consumer updates (" ++ quote (DurableName spec) ++ " on "
       ++ quote (StreamName spec) ++ ") are not allowed, recreate to update") in
  exists creds w',
    reconcile c ns name jsmc w
    = (None, (w',
        [ CallGetCreds ns (CredentialsSecret_ spec) None;
          Emit cns EventTypeNormal "Connecting" "Connecting to NATS Server";
          CallConnect servers (natsName c) creds None;
          Emit cns EventTypeNormal "Connected" "Connected to NATS Server";
          CallLoadConsumer (StreamName spec) (DurableName spec) None;
          updating;
          CallClose ]))
    /\ filter isMutation (traceOf c ns name jsmc w) = []
    /\ filter isWarning (traceOf c ns name jsmc w) = [updating].
Proof.
  intros spec servers updating. subst spec servers updating.
  revert Hexists. name_run c ns name jsmc w.
  rewrite Hget, Hlive, (Zeqb_false _ _ Hchanged). cbn.
  repeat next_call.
  all: end_run; intros Hex; try discriminate Hex.
  all: eexists; eexists; repeat split; reflexivity.
Qed.

(** C2.  A consumer that is not being deleted, whose generation differs
    from the observed one and that the backend reports as not found, in a
    reconciliation in which no step fails.  The credential lookup,
    [Connect] and [LoadConsumer] are called in turn, each on the world
    the one before left; [LoadConsumer] answers not found; then
    [NewConsumer] is called and succeeds, [Update] is called with the
    object with the finalizer token added and succeeds, [UpdateStatus] is
    called with the object the store answered with, its observed
    generation set to its generation and the ready condition with status
    true and reason [Created] upserted, and succeeds.  The reconciliation
    returns no error, leaves the world [Close] makes of the world of the
    status write, and its trace is these calls and the four events.  The
    token added is [streamFinalizerKey]. *)
Theorem create_of_absent_consumer (c : Controller W) (ns name : string)
  (jsmc : jsmClient W) (w : W) (cns : Consumer)
  (Hget : cnsLister c ns name w = Ok cns)
  (Hlive : DeletionTimestamp cns = None)
  (Hchanged : Generation cns <> ObservedGeneration (Status_ cns))
  (Habsent : remoteExists (traceOf c ns name jsmc w) = Some false)
  (Hok : existsb failed (traceOf c ns name jsmc w) = false) :
  let spec := Spec cns in
  let servers := String.concat "," (Servers spec) in
  let ifc := ji_Consumers c ns in
  exists creds w1 w2 nf w3 cn w4 res w5 res' w6,
    let withFinalizer :=
      SetFinalizers cns (addFinalizer (Finalizers cns) streamFinalizerKey) in
    let ready :=
      {| c_Type := readyCondType;
         c_Status := ConditionTrue;
         c_LastTransitionTime := Now c w5;
         c_Reason := "Created";
         c_Message := "Consumer successfully created" |} in
    let withStatus :=
      SetStatus res
        {| ObservedGeneration := Generation res;
           Conditions := upsertCondition (Conditions (Status_ res)) ready |} in
    getCreds c ns (CredentialsSecret_ spec) w = (Ok creds, w1)
    /\ Connect jsmc servers (natsName c) creds w1 = (None, w2)
    /\ LoadConsumer jsmc (StreamName spec) (DurableName spec) w2 = (Err nf, w3)
    /\ NewConsumer jsmc (StreamName spec) {| Durable := DurableName spec |} w3
       = (Ok cn, w4)
    /\ Update ifc withFinalizer w4 = (Ok res, w5)
    /\ UpdateStatus ifc withStatus w5 = (Ok res', w6)
    /\ reconcile c ns name jsmc w
       = (None, (Close jsmc w6,
           [ CallGetCreds ns (CredentialsSecret_ spec) None;
             Emit cns EventTypeNormal "Connecting" "Connecting to NATS Server";
             CallConnect servers (natsName c) creds None;
             Emit cns EventTypeNormal "Connected" "Connected to NATS Server";
             CallLoadConsumer (StreamName spec) (DurableName spec) (Some nf);
             Emit cns EventTypeNormal "Creating"
               ("Creating consumer " ++ quote (DurableName spec)
                ++ " on stream " ++ quote (StreamName spec));
             CallNewConsumer (StreamName spec) {| Durable := DurableName spec |} None;
             CallUpdate withFinalizer (Ok res);
             CallUpdateStatus withStatus (Ok res');
             Emit res EventTypeNormal "Created"
               ("Created consumer " ++ quote (DurableName spec)
                ++ " on stream " ++ quote (StreamName spec));
             CallClose ]))
    /\ apiNotFound nf = true
    /\ In streamFinalizerKey (Finalizers withFinalizer)
    /\ ObservedGeneration (Status_ withStatus) = Generation withStatus
    /\ In ready (Conditions (Status_ withStatus)).
Proof.
  intros spec servers ifc. subst spec servers ifc.
  revert Habsent Hok. name_run c ns name jsmc w.
  rewrite Hget, Hlive, (Zeqb_false _ _ Hchanged). cbn.
  repeat next_call_eq.
  all: end_run; intros Hab Hok; try discriminate Hab; try discriminate Hok.
  do 11 eexists.
  do 6 (split; [first [reflexivity | eassumption] |]).
  split; [reflexivity |]. cbn.
  repeat split; [assumption | apply addFinalizer_In | apply upsertCondition_In].
Qed.

(** C5.  Once the existence check has answered, the case of the
    [switch] that [processConsumer] enters is the one the spec's
    classification names: delete whenever the deletion timestamp is set;
    create exactly when the object is not being deleted, its generation
    differs from the observed one and the consumer is absent; update
    exactly when it is not being deleted, the generation differs and the
    consumer exists; and otherwise, no-op: the warning event [Noop] is
    emitted, nothing that changes the backend or the store is called, and
    no error is returned. *)
Theorem action_follows_classification (c : Controller W) (ns name : string)
  (jsmc : jsmClient W) (w : W) (cns : Consumer) (exists_ : bool)
  (Hget : cnsLister c ns name w = Ok cns)
  (Hreached : remoteExists (traceOf c ns name jsmc w) = Some exists_) :
  let spec := Spec cns in
  let servers := String.concat "," (Servers spec) in
  let deleting := isSome (DeletionTimestamp cns) in
  let changed := negb (Generation cns =? ObservedGeneration (Status_ cns))%Z in
  let tr := traceOf c ns name jsmc w in
  selected tr = Some (spec_classify exists_ deleting changed)
  /\ (deleting = true -> selected tr = Some ActDelete)
  /\ (selected tr = Some ActCreate <->
      deleting = false /\ changed = true /\ exists_ = false)
  /\ (selected tr = Some ActUpdate <->
      deleting = false /\ changed = true /\ exists_ = true)
  /\ (deleting = false -> changed = false ->
      exists creds lerr w',
        reconcile c ns name jsmc w
        = (None, (w',
            [ CallGetCreds ns (CredentialsSecret_ spec) None;
              Emit cns EventTypeNormal "Connecting" "Connecting to NATS Server";
              CallConnect servers (natsName c) creds None;
              Emit cns EventTypeNormal "Connected" "Connected to NATS Server";
              CallLoadConsumer (StreamName spec) (DurableName spec) lerr;
              Emit cns EventTypeWarning "Noop"
                ("Nothing done for consumer " ++ quote (DurableName spec));
              CallClose ]))
        /\ filter isMutation tr = []).
Proof.
  intros spec servers deleting changed tr. subst spec servers deleting changed tr.
  revert Hreached. name_run c ns name jsmc w. rewrite Hget. cbn.
  destruct (DeletionTimestamp cns) as [ts |];
    destruct (Generation cns =? ObservedGeneration (Status_ cns))%Z; cbn.
  all: repeat next_call.
  all: end_run; intros Hex; try discriminate Hex.
  all: injection Hex as <-; cbn.
  all: repeat split; intros; try discriminate; try reflexivity;
    try (intuition discriminate).
  all: do 3 eexists; split; reflexivity.
Qed.

(** ** Failures *)

Local Arguments Error : simpl never.

(** C4.  A reconciliation of an object found in the cache returns an
    error exactly when one of its steps failed.  When one did, the part
    of [processConsumer] before its deferred status write has returned an
    error [e], the error of the first step that failed, as it is or under
    the context of the operation, for an object [obj] on a world [wPre].
    Then [UpdateStatus] is called on [wPre] with [obj], the ready
    condition with status false, reason [Errored] and message the text of
    [e] upserted; that call is the last effect and the world it leaves is
    the world of the reconciliation.  The error returned is [e] under the
    context of [processConsumer] when the write succeeded; when the write
    answered an error, it is [e] joined with that error, under the same
    context.  The object is the cached one, possibly with its finalizers
    changed, or the one the store answered the finalizer write with. *)
Theorem failure_is_recorded_and_returned (c : Controller W) (ns name : string)
  (jsmc : jsmClient W) (w : W) (cns : Consumer)
  (Hget : cnsLister c ns name w = Ok cns) :
  let tr := traceOf c ns name jsmc w in
  let ifc := ji_Consumers c ns in
  let withToken :=
    SetFinalizers cns (addFinalizer (Finalizers cns) streamFinalizerKey) in
  let withoutToken :=
    SetFinalizers cns (removeFinalizer (Finalizers cns) streamFinalizerKey) in
  (existsb failed tr = false -> returned c ns name jsmc w = None)
  /\ (existsb failed tr = true ->
      exists obj e e0 wPre pre,
        let sc := erroredStatus obj (Now c wPre) e in
        let r := fst (UpdateStatus ifc sc wPre) in
        reconcileFound c ns jsmc cns ifc (w, []) = ((obj, Some e), (wPre, pre))
        /\ reconcile c ns name jsmc w
           = (Some (Errorf "failed to process consumer: " (joinWriteError e r)),
              (snd (UpdateStatus ifc sc wPre), (pre ++ [CallUpdateStatus sc r])%list))
        /\ last tr CallClose = CallUpdateStatus sc r
        /\ firstFailure tr = Some e0
        /\ (e = e0 \/ exists context, e = Errorf context e0)
        /\ (obj = cns \/ obj = withToken \/ obj = withoutToken
            \/ In (CallUpdate withToken (Ok obj)) tr)
        /\ (forall serr, r = Err serr ->
              returned c ns name jsmc w
              = Some (Errorf "failed to process consumer: "
                        (Errorf (Error e ++ ": ")
                           (Errorf "failed to set consumer errored status: " serr))))
        /\ (forall res, r = Ok res ->
              returned c ns name jsmc w
              = Some (Errorf "failed to process consumer: " e))).
Proof.
  intros tr ifc withToken withoutToken. subst tr ifc withToken withoutToken.
  name_run c ns name jsmc w. rewrite Hget. cbn.
  destruct (DeletionTimestamp cns) as [ts |];
    destruct (Generation cns =? ObservedGeneration (Status_ cns))%Z; cbn.
  all: repeat next_call_eq.
  all: end_run.
  all: split; intros Hfail; try discriminate Hfail; try reflexivity.
  all: do 5 eexists.
  all: split; [reflexivity |].
  all: unfold erroredStatus; cbn.
  all: match goal with
       | H : UpdateStatus _ _ _ = _ |- _ => rewrite !H
       end; cbn.
  all: split; [reflexivity |].
  all: split; [reflexivity |].
  all: split; [reflexivity |].
  all: split; [first [left; reflexivity | right; eexists; reflexivity] |].
  all: split; [repeat (first [left; reflexivity | right]) |].
  all: split;
    [ intros serr Hr; first [discriminate Hr | injection Hr as <-; reflexivity]
    | intros res' Hr; first [discriminate Hr | reflexivity] ].
Qed.

(** ** Finalizers *)

Lemma prefixesSatisfy_split (P : list Effect -> Effect -> bool)
  (tr acc pre post : list Effect) (e : Effect) :
  prefixesSatisfy P acc tr = true ->
  tr = (pre ++ e :: post)%list ->
  P (acc ++ pre)%list e = true.
Proof.
  revert tr acc. induction pre as [| x pre IH]; intros tr acc Hall ->; simpl in Hall.
  - apply andb_true_iff in Hall. rewrite app_nil_r. tauto.
  - apply andb_true_iff in Hall. destruct Hall as [_ Hall].
    specialize (IH _ _ Hall eq_refl). now rewrite <- app_assoc in IH.
Qed.

Lemma isCreated_In (tr : list Effect) :
  existsb isCreated tr = true ->
  exists stream cfg, In (CallNewConsumer stream cfg None) tr.
Proof.
  rewrite existsb_exists. intros [e [Hin He]].
  destruct e as [| | | | | stream cfg [err |] | | |]; try discriminate.
  now exists stream, cfg.
Qed.

Ltac split_In :=
  repeat match goal with
         | H : False |- _ => contradiction
         | H : _ \/ _ |- _ => destruct H as [H | H]
         | H : CallUpdate _ _ = CallUpdate _ _ |- _ => injection H as <- <-
         | H : _ = CallUpdate _ _ |- _ => discriminate H
         end.

(** The [Update] writes of a reconciliation: the cached object with the
    token added when it is not being deleted, with the token removed when
    it is. *)
Lemma update_writes (c : Controller W) (ns name : string)
  (jsmc : jsmClient W) (w : W) (cns : Consumer)
  (Hget : cnsLister c ns name w = Ok cns) (o : Consumer) (r : result Consumer) :
  In (CallUpdate o r) (traceOf c ns name jsmc w) ->
  (DeletionTimestamp cns = None
   /\ o = SetFinalizers cns (addFinalizer (Finalizers cns) streamFinalizerKey))
  \/ (DeletionTimestamp cns <> None
      /\ o = SetFinalizers cns (removeFinalizer (Finalizers cns) streamFinalizerKey)).
Proof.
  name_run c ns name jsmc w. rewrite Hget. cbn.
  destruct (DeletionTimestamp cns) as [ts |];
    destruct (Generation cns =? ObservedGeneration (Status_ cns))%Z; cbn.
  all: repeat next_call.
  all: end_run; intros Hin; split_In.
  all: first [left; split; [reflexivity | reflexivity]
             | right; split; [discriminate | reflexivity]].
Qed.

Lemma finalizer_write_checked (c : Controller W) (ns name : string)
  (jsmc : jsmClient W) (w : W) (cns : Consumer)
  (Hget : cnsLister c ns name w = Ok cns) :
  prefixesSatisfy (createdBefore streamFinalizerKey) [] (traceOf c ns name jsmc w) = true.
Proof.
  name_run c ns name jsmc w. rewrite Hget. cbn.
  destruct (DeletionTimestamp cns) as [ts |];
    destruct (Generation cns =? ObservedGeneration (Status_ cns))%Z; cbn.
  all: repeat next_call.
  all: end_run; try reflexivity.
  all: rewrite ?removeFinalizer_not_In; cbn; try reflexivity.
  all: repeat match goal with
              | |- context [if ?b then _ else _] => destruct b; cbn
              end; reflexivity.
Qed.

(** The write that adds the token, the call that created the consumer
    and the backend afterwards. *)
Lemma finalizer_write_follows_create (c : Controller W) (ns name : string)
  (jsmc : jsmClient W) (w : W) (cns : Consumer) (o : Consumer) (r : result Consumer)
  (Hget : cnsLister c ns name w = Ok cns) :
  In (CallUpdate o r) (traceOf c ns name jsmc w) ->
  In streamFinalizerKey (Finalizers o) ->
  DeletionTimestamp cns = None
  /\ (exists wa cn wb,
        NewConsumer jsmc (StreamName (Spec cns))
          {| Durable := DurableName (Spec cns) |} wa = (Ok cn, wb)
        /\ r = fst (Update (ji_Consumers c ns) o wb))
  /\ (forall onBackend : W -> bool,
        (forall stream cfg w1 cn w2,
           NewConsumer jsmc stream cfg w1 = (Ok cn, w2) -> onBackend w2 = true) ->
        (forall o1 w1 r1 w2,
           Update (ji_Consumers c ns) o1 w1 = (r1, w2) -> onBackend w2 = onBackend w1) ->
        (forall o1 w1 r1 w2,
           UpdateStatus (ji_Consumers c ns) o1 w1 = (r1, w2) ->
           onBackend w2 = onBackend w1) ->
        (forall w1, onBackend (Close jsmc w1) = onBackend w1) ->
        onBackend (fst (snd (reconcile c ns name jsmc w))) = true).
Proof.
  name_run c ns name jsmc w. rewrite Hget. cbn.
  destruct (DeletionTimestamp cns) as [ts |];
    destruct (Generation cns =? ObservedGeneration (Status_ cns))%Z; cbn.
  all: repeat next_call_eq.
  all: end_run; intros Hin Htoken; split_In.
  all: try (exfalso; cbn in Htoken; apply existsb_eqb_In in Htoken;
            rewrite removeFinalizer_not_In in Htoken; discriminate Htoken).
  all: split; [reflexivity |].
  all: split;
    [ do 3 eexists; split; [eassumption |];
      match goal with
      | H : Update _ _ _ = _ |- _ => rewrite H
      end; reflexivity
    | ].
  all: intros onBackend Hnew Hupd Hst Hclose.
  all: repeat match goal with
              | H : NewConsumer _ _ _ _ = (Ok _, _) |- _ => apply Hnew in H
              | H : Update _ _ _ = _ |- _ => apply Hupd in H
              | H : UpdateStatus _ _ _ = _ |- _ => apply Hst in H
              end.
  all: rewrite ?Hclose; congruence.
Qed.

(** C6.  Whenever a reconciliation writes ([Update]) an object that
    carries the finalizer token, the remote consumer was created before
    that write: the object is not being deleted, a [NewConsumer] that
    succeeded stands earlier in the trace, no step before the write
    failed, the object written is the cached one with the token added,
    and the write was made on the world a [NewConsumer] call that
    succeeded left.  After such a reconciliation the consumer is on the
    backend, for every reading [onBackend] of the world that a successful
    [NewConsumer] makes true and that the writes to the store and [Close]
    leave as it is. *)
Theorem finalizer_set_only_after_create (c : Controller W) (ns name : string)
  (jsmc : jsmClient W) (w : W) (cns : Consumer)
  (pre post : list Effect) (o : Consumer) (r : result Consumer)
  (Hget : cnsLister c ns name w = Ok cns)
  (Hwrite : traceOf c ns name jsmc w = (pre ++ CallUpdate o r :: post)%list)
  (Htoken : In streamFinalizerKey (Finalizers o)) :
  (exists stream cfg, In (CallNewConsumer stream cfg None) pre)
  /\ existsb failed pre = false
  /\ o = SetFinalizers cns (addFinalizer (Finalizers cns) streamFinalizerKey)
  /\ DeletionTimestamp cns = None
  /\ (exists wa cn wb,
        NewConsumer jsmc (StreamName (Spec cns))
          {| Durable := DurableName (Spec cns) |} wa = (Ok cn, wb)
        /\ r = fst (Update (ji_Consumers c ns) o wb))
  /\ (forall onBackend : W -> bool,
        (forall stream cfg w1 cn w2,
           NewConsumer jsmc stream cfg w1 = (Ok cn, w2) -> onBackend w2 = true) ->
        (forall o1 w1 r1 w2,
           Update (ji_Consumers c ns) o1 w1 = (r1, w2) -> onBackend w2 = onBackend w1) ->
        (forall o1 w1 r1 w2,
           UpdateStatus (ji_Consumers c ns) o1 w1 = (r1, w2) ->
           onBackend w2 = onBackend w1) ->
        (forall w1, onBackend (Close jsmc w1) = onBackend w1) ->
        onBackend (fst (snd (reconcile c ns name jsmc w))) = true).
Proof.
  pose proof (finalizer_write_checked c ns name jsmc w cns Hget) as Hall.
  pose proof (prefixesSatisfy_split _ _ _ _ _ _ Hall Hwrite) as Hp.
  simpl in Hp. pose proof Htoken as Hcarries.
  apply existsb_eqb_In in Htoken. rewrite Htoken in Hp.
  apply andb_true_iff in Hp. destruct Hp as [Hcreated Hclean].
  apply negb_true_iff in Hclean.
  assert (Hin : In (CallUpdate o r) (traceOf c ns name jsmc w)).
  { rewrite Hwrite. apply in_or_app. right. now left. }
  split; [now apply isCreated_In | split; [assumption |]].
  split.
  - destruct (update_writes c ns name jsmc w cns Hget o r Hin) as [[_ Ho] | [_ Ho]].
    + assumption.
    + exfalso. subst o. simpl in Htoken.
      rewrite removeFinalizer_not_In in Htoken. discriminate.
  - exact (finalizer_write_follows_create c ns name jsmc w cns o r Hget Hin Hcarries).
Qed.

(** C7.  [setConsumerFinalizer] writes its object with
    [streamFinalizerKey] added and [clearConsumerFinalizer] writes its
    object with [streamFinalizerKey] removed, so that clearing after
    setting leaves no [streamFinalizerKey].  With [streamFinalizerKey]
    another token than [consumerFinalizerKey]: an [Update] write of a
    reconciliation carries [consumerFinalizerKey] exactly when the cached
    object did, and for an object that is being deleted and carries only
    [consumerFinalizerKey] every such write still carries exactly that
    token. *)
Theorem finalizer_token_is_streamFinalizerKey (c : Controller W) (ns name : string)
  (jsmc : jsmClient W) (w : W) (cns : Consumer)
  (Hdistinct : streamFinalizerKey <> consumerFinalizerKey)
  (Hget : cnsLister c ns name w = Ok cns) :
  (forall s i w0,
     snd (snd (setConsumerFinalizer s i (w0, [])))
     = [ CallUpdate (SetFinalizers s (addFinalizer (Finalizers s) streamFinalizerKey))
           (fst (Update i (SetFinalizers s
                   (addFinalizer (Finalizers s) streamFinalizerKey)) w0)) ]
     /\ snd (snd (clearConsumerFinalizer s i (w0, [])))
        = [ CallUpdate (SetFinalizers s (removeFinalizer (Finalizers s) streamFinalizerKey))
              (fst (Update i (SetFinalizers s
                      (removeFinalizer (Finalizers s) streamFinalizerKey)) w0)) ])
  /\ (forall fs,
        removeFinalizer (addFinalizer fs streamFinalizerKey) streamFinalizerKey
        = removeFinalizer fs streamFinalizerKey
        /\ ~ In streamFinalizerKey
             (removeFinalizer (addFinalizer fs streamFinalizerKey) streamFinalizerKey))
  /\ (forall o r, In (CallUpdate o r) (traceOf c ns name jsmc w) ->
        (In consumerFinalizerKey (Finalizers o)
         <-> In consumerFinalizerKey (Finalizers cns)))
  /\ (DeletionTimestamp cns <> None ->
      Finalizers cns = [consumerFinalizerKey] ->
      forall o r, In (CallUpdate o r) (traceOf c ns name jsmc w) ->
        Finalizers o = [consumerFinalizerKey]).
Proof.
  split; [| split; [| split]].
  - intros s i w0. unfold setConsumerFinalizer, clearConsumerFinalizer, bind, call, ret.
    cbn. split.
    + destruct (Update i _ w0) as [[res | e] w1]; reflexivity.
    + destruct (Update i _ w0) as [[res | e] w1]; reflexivity.
  - intros fs. split; [apply removeFinalizer_addFinalizer |].
    rewrite removeFinalizer_In. tauto.
  - intros o r Hin.
    destruct (update_writes c ns name jsmc w cns Hget o r Hin) as [[_ ->] | [_ ->]]; simpl.
    + apply addFinalizer_other. congruence.
    + rewrite removeFinalizer_In. split; [tauto | intros H; split; [assumption | congruence]].
  - intros Hdel Hfs o r Hin.
    destruct (update_writes c ns name jsmc w cns Hget o r Hin) as [[Hl _] | [_ ->]]; simpl.
    + contradiction.
    + rewrite Hfs. apply removeFinalizer_absent.
      intros [H | []]. congruence.
Qed.

(** X1.  The delete case.  An object that is being deleted, whatever its
    generation: when no step fails, the reconciliation loads the remote
    consumer and deletes it, or finds it absent and calls no [Delete];
    then it writes the object with [streamFinalizerKey] removed
    ([Update]).  It writes no status and returns no error. *)
Theorem delete_of_consumer (c : Controller W) (ns name : string)
  (jsmc : jsmClient W) (w : W) (cns : Consumer)
  (Hget : cnsLister c ns name w = Ok cns)
  (Hdeleting : DeletionTimestamp cns <> None)
  (Hok : existsb failed (traceOf c ns name jsmc w) = false) :
  let spec := Spec cns in
  let servers := String.concat "," (Servers spec) in
  let withoutToken :=
    SetFinalizers cns (removeFinalizer (Finalizers cns) streamFinalizerKey) in
  exists creds found loaded deleted res w',
    reconcile c ns name jsmc w
    = (None, (w',
        [ CallGetCreds ns (CredentialsSecret_ spec) None;
          Emit cns EventTypeNormal "Connecting" "Connecting to NATS Server";
          CallConnect servers (natsName c) creds None;
          Emit cns EventTypeNormal "Connected" "Connected to NATS Server";
          CallLoadConsumer (StreamName spec) (DurableName spec) found;
          Emit cns EventTypeNormal "Deleting"
            ("Deleting consumer " ++ quote (DurableName spec)
             ++ " on stream " ++ quote (StreamName spec));
          CallLoadConsumer (StreamName spec) (DurableName spec) loaded ]
        ++ deleted ++ [ CallUpdate withoutToken (Ok res); CallClose ])%list)
    /\ ((loaded = None /\ deleted = [CallDelete None])
        \/ ((exists nf, loaded = Some nf /\ apiNotFound nf = true) /\ deleted = []))
    /\ ~ In streamFinalizerKey (Finalizers withoutToken)
    /\ (forall o r, ~ In (CallUpdateStatus o r) (traceOf c ns name jsmc w)).
Proof.
  intros spec servers withoutToken. subst spec servers withoutToken.
  revert Hok. name_run c ns name jsmc w. rewrite Hget. cbn.
  destruct (DeletionTimestamp cns) as [ts |]; [| contradiction]. cbn.
  repeat next_call.
  all: end_run; intros Hok; try discriminate Hok.
  all: do 3 eexists;
    first
      [ exists [CallDelete None]; do 2 eexists;
        split; [reflexivity |]; split; [left; split; reflexivity |]
      | exists []; do 2 eexists;
        split; [reflexivity |];
        split; [right; split; [eexists; split; [reflexivity | assumption] | reflexivity] |] ].
  all: split; [cbn; rewrite removeFinalizer_In; tauto |].
  all: intros o r Hin; cbn in Hin;
    repeat match goal with
           | H : False |- _ => contradiction
           | H : _ \/ _ |- _ => destruct H as [H | H]
           | H : _ = CallUpdateStatus _ _ |- _ => discriminate H
           end.
Qed.

(** ** The operations on their own *)

(** X2.  [deleteConsumer] returns [nil] exactly when the consumer is
    reported as not found or was loaded and deleted; it calls [Delete]
    exactly when [LoadConsumer] succeeded, on the world that call left,
    and never otherwise; and an error it returns is the error of
    [LoadConsumer] or of [Delete] under the context of the deletion. *)
Theorem deleteConsumer_outcomes (c : jsmClient W) (stream consumer : string) (w : W) :
  let load := fst (LoadConsumer c stream consumer w) in
  let w1 := snd (LoadConsumer c stream consumer w) in
  let out := fst (deleteConsumer c stream consumer (w, [])) in
  let tr := snd (snd (deleteConsumer c stream consumer (w, []))) in
  let context_ :=
    "failed to delete consumer " ++ quote consumer
    ++ " on stream " ++ quote stream ++ ": " in
  (out = None <->
     (exists e, load = Err e /\ apiNotFound e = true)
     \/ (exists cn, load = Ok cn /\ fst (Delete cn w1) = None))
  /\ (forall d, In (CallDelete d) tr <->
         exists cn, load = Ok cn /\ d = fst (Delete cn w1))
  /\ (forall err, out = Some err ->
         exists e, err = Errorf context_ e
           /\ ((load = Err e /\ apiNotFound e = false)
               \/ exists cn, load = Ok cn /\ fst (Delete cn w1) = Some e))
  /\ filter isLoad tr = [CallLoadConsumer stream consumer (errOf load)].
Proof.
  unfold deleteConsumer, bind, call, ret. cbn.
  destruct (LoadConsumer c stream consumer w) as [[cn | e] w1]; cbn.
  - destruct (Delete cn w1) as [[e |] w2] eqn:Hdel; cbn.
    + split; [| split; [| split]].
      * split; [discriminate |].
        intros [[e' [H _]] | [cn' [H H']]]; [discriminate H |].
        injection H as <-. rewrite Hdel in H'. discriminate H'.
      * intros d. split.
        -- intros [H | [H | []]]; [discriminate H |]. injection H as <-.
           exists cn. now rewrite Hdel.
        -- intros [cn' [H ->]]. injection H as <-. rewrite Hdel. right. now left.
      * intros err H. injection H as <-. exists e. split; [reflexivity |].
        right. exists cn. now rewrite Hdel.
      * reflexivity.
    + split; [| split; [| split]].
      * split; [| reflexivity]. intros _. right. exists cn. now rewrite Hdel.
      * intros d. split.
        -- intros [H | [H | []]]; [discriminate H |]. injection H as <-.
           exists cn. now rewrite Hdel.
        -- intros [cn' [H ->]]. injection H as <-. rewrite Hdel. right. now left.
      * discriminate.
      * reflexivity.
  - destruct (apiNotFound e) eqn:E; cbn.
    + split; [| split; [| split]].
      * split; [| reflexivity]. intros _. left. now exists e.
      * intros d. split.
        -- intros [H | []]. discriminate H.
        -- intros [cn [H _]]. discriminate H.
      * discriminate.
      * reflexivity.
    + split; [| split; [| split]].
      * split; [discriminate |].
        intros [[e' [H H']] | [cn [H _]]]; [| discriminate H].
        injection H as <-. congruence.
      * intros d. split.
        -- intros [H | []]. discriminate H.
        -- intros [cn [H _]]. discriminate H.
      * intros err H. injection H as <-. exists e. split; [reflexivity |].
        left. now split.
      * reflexivity.
Qed.

(** ** What every reconciliation keeps to *)

(** A text is not in a list of other texts. *)
Ltac split_strings H :=
  repeat match type of H with
         | False => contradiction
         | _ \/ _ => destruct H as [H | H]; [discriminate H |]
         end.

(** Case analysis on the membership of an effect in a trace that is
    known; [inj] takes the equation of two effects of one kind apart. *)
Ltac split_In_with inj :=
  repeat match goal with
         | H : False |- _ => contradiction
         | H : _ \/ _ |- _ => destruct H as [H | H]
         | H : @eq Effect _ _ |- _ => first [discriminate H | inj H]
         end.

(** What was checked of a known trace holds at each place of it. *)
Ltac at_place P Hsplit :=
  match type of Hsplit with
  | ?t = _ =>
      let Hchk := fresh "Hchk" in
      assert (Hchk : prefixesSatisfy P [] t = true) by reflexivity;
      let Hp := fresh "Hp" in
      pose proof (prefixesSatisfy_split _ _ _ _ _ _ Hchk Hsplit) as Hp;
      cbn in Hp
  end.

(** X3.  The connection of a reconciliation is scoped: [Close] is called
    once when [Connect] succeeded and not at all otherwise; every call on
    the connection ([LoadConsumer], [NewConsumer], [Delete]) comes after
    the [Connect] that succeeded and before [Close]; and [Connect] is
    given the servers of the spec joined by commas, the name of the
    controller and the credentials the lookup returned. *)
Theorem connection_is_scoped (c : Controller W) (ns name : string)
  (jsmc : jsmClient W) (w : W) (cns : Consumer)
  (Hget : cnsLister c ns name w = Ok cns) :
  let tr := traceOf c ns name jsmc w in
  length (filter isClose tr) = (if existsb isConnected tr then 1 else 0)
  /\ (existsb isConnected tr = false -> filter isBackendCall tr = [])
  /\ (forall pre e post,
        tr = (pre ++ e :: post)%list -> isBackendCall e = true ->
        existsb isConnected pre = true /\ existsb isClose pre = false)
  /\ (forall servers n creds err,
        In (CallConnect servers n creds err) tr ->
        servers = String.concat "," (Servers (Spec cns))
        /\ n = natsName c
        /\ fst (getCreds c ns (CredentialsSecret_ (Spec cns)) w) = Ok creds).
Proof.
  intros tr. subst tr.
  name_run c ns name jsmc w. rewrite Hget. cbn.
  destruct (DeletionTimestamp cns) as [ts |];
    destruct (Generation cns =? ObservedGeneration (Status_ cns))%Z; cbn.
  all: repeat next_call.
  all: end_run.
  all: split; [reflexivity |].
  all: split; [intros Hno; first [discriminate Hno | reflexivity] |].
  all: split.
  all: try (intros pre x post Hsplit Hx; at_place onOpenConnection Hsplit;
            unfold onOpenConnection in Hp; rewrite Hx in Hp; cbn in Hp;
            apply andb_true_iff in Hp; destruct Hp as [Hc Hn];
            apply negb_true_iff in Hn; split; assumption).
  all: intros servers n cr err Hin;
    split_In_with ltac:(fun H => injection H as <- <- <- <-);
    repeat split; reflexivity.
Qed.

(** X4.  A reconciliation changes the backend at most once, and in the
    direction the object asks for: [NewConsumer] is only called for an
    object that is not being deleted, whose generation differs from the
    observed one and that the existence check found absent, and it is
    given the stream name of the spec and a configuration holding the
    durable name; [Delete] is only called for an object that is being
    deleted.  The backend is read ([LoadConsumer]) at most twice and the
    object is written ([Update]) at most once. *)
Theorem remote_mutation_matches_object (c : Controller W) (ns name : string)
  (jsmc : jsmClient W) (w : W) (cns : Consumer)
  (Hget : cnsLister c ns name w = Ok cns) :
  let tr := traceOf c ns name jsmc w in
  (forall stream cfg err,
     In (CallNewConsumer stream cfg err) tr ->
     DeletionTimestamp cns = None
     /\ Generation cns <> ObservedGeneration (Status_ cns)
     /\ remoteExists tr = Some false
     /\ stream = StreamName (Spec cns)
     /\ cfg = {| Durable := DurableName (Spec cns) |})
  /\ (forall err,
        In (CallDelete err) tr ->
        DeletionTimestamp cns <> None /\ remoteExists tr <> None)
  /\ length (filter isRemoteMutation tr) <= 1
  /\ length (filter isLoad tr) <= 2
  /\ length (filter isUpdateWrite tr) <= 1.
Proof.
  intros tr. subst tr.
  name_run c ns name jsmc w. rewrite Hget. cbn.
  destruct (DeletionTimestamp cns) as [ts |];
    destruct (Z.eqb_spec (Generation cns) (ObservedGeneration (Status_ cns))); cbn.
  all: repeat next_call.
  all: end_run.
  all: split;
    [ intros stream cfg err Hin;
      split_In_with ltac:(fun H => injection H as <- <- <-);
      repeat split; solve [reflexivity | assumption]
    | ].
  all: split;
    [ intros err Hin;
      split_In_with ltac:(fun H => injection H as <-);
      split; discriminate
    | ].
  all: repeat split; repeat constructor.
Qed.

(** X5.  Where the status writes of a reconciliation come from.  A
    status write is the created status of the object the store answered
    the finalizer write with, written after [NewConsumer] and that write
    succeeded; or it is the errored status, written in a reconciliation
    that returns an error, of the cached object (possibly with its
    finalizers changed) or of the object the store answered the
    finalizer write with.  There are at most two status writes, and at
    most one when no error is returned. *)
Theorem status_writes_provenance (c : Controller W) (ns name : string)
  (jsmc : jsmClient W) (w : W) (cns : Consumer)
  (Hget : cnsLister c ns name w = Ok cns) :
  let tr := traceOf c ns name jsmc w in
  let withToken :=
    SetFinalizers cns (addFinalizer (Finalizers cns) streamFinalizerKey) in
  let withoutToken :=
    SetFinalizers cns (removeFinalizer (Finalizers cns) streamFinalizerKey) in
  (forall o r,
     In (CallUpdateStatus o r) tr ->
     (exists res t,
        o = okStatus res t
        /\ In (CallUpdate withToken (Ok res)) tr
        /\ In (CallNewConsumer (StreamName (Spec cns))
                 {| Durable := DurableName (Spec cns) |} None) tr)
     \/ (exists obj t e,
          o = erroredStatus obj t e
          /\ returned c ns name jsmc w <> None
          /\ (obj = cns \/ obj = withToken \/ obj = withoutToken
              \/ In (CallUpdate withToken (Ok obj)) tr)))
  /\ length (statusWrites tr) <= 2
  /\ (returned c ns name jsmc w = None -> length (statusWrites tr) <= 1).
Proof.
  intros tr withToken withoutToken. subst tr withToken withoutToken.
  name_run c ns name jsmc w. rewrite Hget. cbn.
  destruct (DeletionTimestamp cns) as [ts |];
    destruct (Generation cns =? ObservedGeneration (Status_ cns))%Z; cbn.
  all: repeat next_call.
  all: end_run.
  all: split;
    [ intros o r Hin;
      split_In_with ltac:(fun H => injection H as <- <-)
    | split; [repeat constructor | intros Hnil; try discriminate Hnil; repeat constructor] ].
  all: first
    [ left;
      match goal with
      | |- context [@eq Consumer (SetStatus ?x _)] => exists x
      end;
      eexists; split; [reflexivity |];
      split; cbn; repeat (first [left; reflexivity | right])
    | right;
      match goal with
      | |- context [@eq Consumer (SetStatus ?x _)] => exists x
      end;
      do 2 eexists; split; [reflexivity |];
      split; [discriminate |];
      cbn; repeat (first [left; reflexivity | right]) ].
Qed.

(** ** The error returned *)

Lemma append_empty_r (s : string) : s ++ "" = s.
Proof.
  induction s as [| a s IH]; [reflexivity |].
  change (String a (s ++ "") = String a s). now rewrite IH.
Qed.

Lemma append_assoc (s1 s2 s3 : string) : (s1 ++ s2) ++ s3 = s1 ++ s2 ++ s3.
Proof.
  induction s1 as [| a s1 IH]; [reflexivity |].
  change (String a ((s1 ++ s2) ++ s3) = String a (s1 ++ s2 ++ s3)). now rewrite IH.
Qed.

Lemma prefix_append (p s : string) : String.prefix p (p ++ s) = true.
Proof.
  induction p as [| a p IH].
  - destruct s; reflexivity.
  - change (String.prefix (String a p) (String a (p ++ s)) = true).
    cbn [String.prefix]. destruct (Ascii.ascii_dec a a); [assumption | congruence].
Qed.

Lemma contains_refl (s : string) : contains s s.
Proof.
  exists "", "". change (s = s ++ ""). now rewrite append_empty_r.
Qed.

Lemma contains_append_l (p s sub : string) : contains s sub -> contains (p ++ s) sub.
Proof.
  intros [before [after ->]]. exists (p ++ before), after.
  now rewrite append_assoc.
Qed.

Lemma contains_append_r (s q sub : string) : contains s sub -> contains (s ++ q) sub.
Proof.
  intros [before [after ->]]. exists before, (after ++ q).
  now rewrite !append_assoc.
Qed.

(** The shape of a reconciliation that returns an error. *)
Lemma failing_run_shape (c : Controller W) (ns name : string)
  (jsmc : jsmClient W) (w : W) (cns : Consumer) (err : error)
  (Hget : cnsLister c ns name w = Ok cns) :
  returned c ns name jsmc w = Some err ->
  exists e r o e0,
    last (traceOf c ns name jsmc w) CallClose = CallUpdateStatus o r
    /\ err = Errorf "failed to process consumer: " (joinWriteError e r)
    /\ firstFailure (traceOf c ns name jsmc w) = Some e0
    /\ (e = e0 \/ exists context, e = Errorf context e0).
Proof.
  name_run c ns name jsmc w. rewrite Hget. cbn.
  destruct (DeletionTimestamp cns) as [ts |];
    destruct (Generation cns =? ObservedGeneration (Status_ cns))%Z; cbn.
  all: repeat next_call.
  all: end_run; intros Hret; try discriminate Hret.
  all: injection Hret as <-.
  all: do 4 eexists.
  all: split; [reflexivity |].
  all: split; [reflexivity |].
  all: split; [reflexivity |].
  all: first [left; reflexivity | right; eexists; reflexivity].
Qed.

(** X6.  What a caller can read off the error a reconciliation returns.
    Its text starts with the context of [processConsumer] and holds the
    text of the error of the step that failed first.  When the errored
    status was written, that error is still reached by unwrapping: the
    returned error has its [ApiError] and its status reason.  When
    writing the errored status failed as well, unwrapping reaches the
    error of the write instead, and the error of the step survives as
    text only. *)
Theorem returned_error_carries_cause (c : Controller W) (ns name : string)
  (jsmc : jsmClient W) (w : W) (cns : Consumer) (err : error)
  (Hget : cnsLister c ns name w = Ok cns)
  (Hret : returned c ns name jsmc w = Some err) :
  exists e0 o r,
    firstFailure (traceOf c ns name jsmc w) = Some e0
    /\ last (traceOf c ns name jsmc w) CallClose = CallUpdateStatus o r
    /\ String.prefix "failed to process consumer: " (Error err) = true
    /\ contains (Error err) (Error e0)
    /\ match r with
       | Ok _ =>
           As_ApiError err = As_ApiError e0
           /\ ReasonForError err = ReasonForError e0
       | Err serr =>
           As_ApiError err = As_ApiError serr
           /\ ReasonForError err = ReasonForError serr
           /\ contains (Error err) (Error serr)
       end.
Proof.
  destruct (failing_run_shape c ns name jsmc w cns err Hget Hret)
    as [e [r [o [e0 [Hlast [-> [Hfirst Hcause]]]]]]].
  exists e0, o, r.
  split; [assumption |]. split; [assumption |].
  split; [apply prefix_append |].
  assert (Hin : contains (Error e) (Error e0)).
  { destruct Hcause as [-> | [context ->]].
    - apply contains_refl.
    - change (Error (Errorf context e0)) with (context ++ Error e0).
      apply contains_append_l, contains_refl. }
  assert (Hchain : As_ApiError e = As_ApiError e0
                   /\ ReasonForError e = ReasonForError e0).
  { destruct Hcause as [-> | [context ->]]; split; reflexivity. }
  destruct r as [res | serr].
  - split; [| exact Hchain].
    change (contains ("failed to process consumer: " ++ Error e) (Error e0)).
    now apply contains_append_l.
  - split; [| split; [reflexivity | split; [reflexivity |]]].
    + change (contains ("failed to process consumer: "
                        ++ (Error e ++ ": ")
                        ++ "failed to set consumer errored status: " ++ Error serr)
                (Error e0)).
      apply contains_append_l. rewrite append_assoc.
      now apply contains_append_r.
    + change (contains ("failed to process consumer: "
                        ++ (Error e ++ ": ")
                        ++ "failed to set consumer errored status: " ++ Error serr)
                (Error serr)).
      apply contains_append_l, contains_append_l, contains_append_l, contains_refl.
Qed.

(** ** From one reconciliation to the next *)

(** X7.  A reconciliation that finds in the cache the object a successful
    creation wrote the status of, not being deleted, has nothing to do:
    once the existence check has answered, whatever the answer, it enters
    the no-op case, calls nothing that changes the backend or the store
    and returns no error. *)
Theorem reconcile_after_create_is_noop (c : Controller W) (ns name : string)
  (jsmc : jsmClient W) (w : W) (res : Consumer) (t : string) (exists_ : bool)
  (Hget : cnsLister c ns name w = Ok (okStatus res t))
  (Hlive : DeletionTimestamp res = None)
  (Hreached : remoteExists (traceOf c ns name jsmc w) = Some exists_) :
  selected (traceOf c ns name jsmc w) = Some ActNoop
  /\ filter isMutation (traceOf c ns name jsmc w) = []
  /\ returned c ns name jsmc w = None.
Proof.
  revert Hreached. name_run c ns name jsmc w. rewrite Hget. cbn.
  rewrite Hlive, Z.eqb_refl. cbn.
  repeat next_call.
  all: end_run; intros Hex; try discriminate Hex.
  all: repeat split.
Qed.

(** ** Events *)

(** X8.  The events of a reconciliation follow its progress: their
    reasons are [Connecting], [Connected] and then the reason of the case
    entered, [Created] closing the create case, cut where the
    reconciliation stopped.  [Created] is only emitted when no error is
    returned; a warning event ([Updating], [Noop]) is only emitted by a
    reconciliation that changes nothing and returns no error; no event is
    emitted exactly when the credential lookup failed; and [Connected] is
    emitted exactly when [Connect] succeeded. *)
Theorem events_follow_progress (c : Controller W) (ns name : string)
  (jsmc : jsmClient W) (w : W) (cns : Consumer)
  (Hget : cnsLister c ns name w = Ok cns) :
  let tr := traceOf c ns name jsmc w in
  In (eventReasons tr) eventSequences
  /\ (In "Created" (eventReasons tr) -> returned c ns name jsmc w = None)
  /\ (filter isWarning tr <> [] ->
      returned c ns name jsmc w = None /\ filter isMutation tr = [])
  /\ (eventReasons tr = [] <->
      exists e, fst (getCreds c ns (CredentialsSecret_ (Spec cns)) w) = Err e)
  /\ (In "Connected" (eventReasons tr) <-> existsb isConnected tr = true).
Proof.
  intros tr. subst tr. unfold eventSequences.
  name_run c ns name jsmc w. rewrite Hget. cbn.
  destruct (DeletionTimestamp cns) as [ts |];
    destruct (Generation cns =? ObservedGeneration (Status_ cns))%Z; cbn.
  all: repeat next_call.
  all: end_run.
  all: split; [repeat (first [left; reflexivity | right]) |].
  all: split;
    [ intros Hin; first [reflexivity | exfalso; split_strings Hin] |].
  all: split;
    [ intros Hw; first [split; reflexivity | exfalso; apply Hw; reflexivity] |].
  all: split;
    [ split;
      [ intros Hnone; first [discriminate Hnone | eexists; reflexivity]
      | intros [e' He']; first [discriminate He' | reflexivity] ]
    | ].
  all: split; intros Hc;
    first [ reflexivity
          | discriminate Hc
          | right; left; reflexivity
          | exfalso; split_strings Hc ].
Qed.

(** ** The operations together *)

(** X9.  [consumerExists] and [deleteConsumer] read the answer of
    [LoadConsumer] alike.  On a world where the existence check reports
    the consumer absent, [deleteConsumer] returns [nil] and calls no
    [Delete]; where the check finds the consumer, [deleteConsumer] calls
    [Delete] and returns what it answers, under its context when it is an
    error; where the check fails, [deleteConsumer] fails on the same
    cause, each under its own context, and calls no [Delete]. *)
Theorem exists_and_delete_agree (c : jsmClient W) (stream consumer : string) (w : W) :
  let found := fst (consumerExists c stream consumer (w, [])) in
  let del := fst (deleteConsumer c stream consumer (w, [])) in
  let tr := snd (snd (deleteConsumer c stream consumer (w, []))) in
  let context_ :=
    "failed to delete consumer " ++ quote consumer
    ++ " on stream " ++ quote stream ++ ": " in
  (found = (false, None) -> del = None /\ filter isRemoteMutation tr = [])
  /\ (found = (true, None) ->
      exists d, filter isRemoteMutation tr = [CallDelete d]
        /\ del = match d with
                 | Some e => Some (Errorf context_ e)
                 | None => None
                 end)
  /\ (forall err, found = (false, Some err) ->
        exists cause,
          err = Errorf "failed to check if consumer exists: " cause
          /\ del = Some (Errorf context_ cause)
          /\ filter isRemoteMutation tr = []).
Proof.
  unfold consumerExists, deleteConsumer, bind, call, ret. cbn.
  destruct (LoadConsumer c stream consumer w) as [[cn | e] w1]; cbn.
  - destruct (Delete cn w1) as [[e |] w2]; cbn.
    + repeat split; try discriminate. intros _. now exists (Some e).
    + repeat split; try discriminate. intros _. now exists None.
  - destruct (apiNotFound e); cbn.
    + repeat split; try discriminate.
    + repeat split; try discriminate.
      intros err H. injection H as <-. now exists e.
Qed.

(** X10.  Which context the errored status names.  With [f] the first
    step of a reconciliation that failed and [e0] its error, the message
    of the errored status written is the text of [e0] when [f] is the
    credential lookup or [Connect], and otherwise the text of [e0] under
    the context of the operation: of the existence check for the first
    [LoadConsumer], of the deletion for the second one and for [Delete],
    of the creation for [NewConsumer], of setting or clearing the
    finalizers for [Update], and of setting the status for
    [UpdateStatus]. *)
Theorem errored_message_names_operation (c : Controller W) (ns name : string)
  (jsmc : jsmClient W) (w : W) (cns : Consumer)
  (pre : list Effect) (f : Effect)
  (Hget : cnsLister c ns name w = Ok cns)
  (Hfailed : firstFailed [] (traceOf c ns name jsmc w) = Some (pre, f)) :
  exists obj t e r e0,
    last (traceOf c ns name jsmc w) CallClose
    = CallUpdateStatus (erroredStatus obj t e) r
    /\ firstFailure (traceOf c ns name jsmc w) = Some e0
    /\ e = match operationContext cns pre f with
           | Some context => Errorf context e0
           | None => e0
           end.
Proof.
  revert Hfailed. name_run c ns name jsmc w. rewrite Hget. cbn.
  destruct (DeletionTimestamp cns) as [ts |] eqn:Hts;
    destruct (Generation cns =? ObservedGeneration (Status_ cns))%Z; cbn.
  all: repeat next_call.
  all: end_run; intros Hf; try discriminate Hf.
  all: injection Hf as <- <-.
  all: match goal with
       | |- context [@eq Effect (CallUpdateStatus (SetStatus ?o _) _)] => exists o
       end.
  all: do 4 eexists.
  all: split; [reflexivity |].
  all: split; [reflexivity |].
  all: unfold operationContext; cbn; rewrite ?Hts; reflexivity.
Qed.

End Reconcile.

(** ** The tests of the package as runs

    [processConsumer] on the doubles, with the key [default/my-consumer]
    the tests use. *)

Local Abbreviation testRun store m credsErr updateErr statusErr :=
  (reconcile aStreamFinalizerKey aReadyCondType quotePlain
     (fakeController store credsErr updateErr statusErr)
     "default" "my-consumer" (mockClient m) tt).

Local Abbreviation testTrace store m credsErr updateErr statusErr :=
  (traceOf aStreamFinalizerKey aReadyCondType quotePlain
     (fakeController store credsErr updateErr statusErr)
     "default" "my-consumer" (mockClient m) tt).

Local Abbreviation testReturned store m credsErr updateErr statusErr :=
  (returned aStreamFinalizerKey aReadyCondType quotePlain
     (fakeController store credsErr updateErr statusErr)
     "default" "my-consumer" (mockClient m) tt).

(** C1.  The object of the test [delete consumer]: it is being deleted,
    carries [consumerFinalizerKey] and exists on the backend.  With
    [streamFinalizerKey] another token than [consumerFinalizerKey], the
    reconciliation deletes the remote consumer and then writes the object
    as it was: the [Update] write still carries [consumerFinalizerKey],
    the token declared for consumers is not removed. *)
Theorem delete_keeps_consumerFinalizerKey
  (streamFinalizerKey readyCondType : string) (quote : string -> string)
  (Hdistinct : streamFinalizerKey <> consumerFinalizerKey) :
  reconcile streamFinalizerKey readyCondType quote
    (fakeController [deletingConsumerObject] None None None)
    "default" "my-consumer" (mockClient noErrors) tt
  = (None, (tt,
      [ CallGetCreds "default" {| cs_Name := ""; cs_Key := "" |} None;
        Emit deletingConsumerObject EventTypeNormal
          "Connecting" "Connecting to NATS Server";
        CallConnect "" "" "" None;
        Emit deletingConsumerObject EventTypeNormal
          "Connected" "Connected to NATS Server";
        CallLoadConsumer "" "my-consumer" None;
        Emit deletingConsumerObject EventTypeNormal "Deleting"
          ("Deleting consumer " ++ quote "my-consumer" ++ " on stream " ++ quote "");
        CallLoadConsumer "" "my-consumer" None;
        CallDelete None;
        CallUpdate deletingConsumerObject (Ok deletingConsumerObject);
        CallClose ]))
  /\ Finalizers deletingConsumerObject = [consumerFinalizerKey].
Proof.
  split; [| reflexivity].
  assert (Hkeep : removeFinalizer [consumerFinalizerKey] streamFinalizerKey
                  = [consumerFinalizerKey]).
  { apply removeFinalizer_absent. intros [H | []]. congruence. }
  unfold reconcile, processConsumer, reconcileFound, reconcileConnected,
    deferErrored, deferWrap, consumerExists, deleteConsumer, clearConsumerFinalizer,
    normalEvent, warningEvent, call, emit, readWorld, bind, ret.
  cbn -[removeFinalizer String.append]. rewrite Hkeep. reflexivity.
Qed.

Lemma delete_keeps_consumerFinalizerKey_witness :
  aStreamFinalizerKey <> consumerFinalizerKey
  /\ In (CallUpdate deletingConsumerObject (Ok deletingConsumerObject))
        (testTrace [deletingConsumerObject] noErrors None None None).
Proof.
  assert (Hd : aStreamFinalizerKey <> consumerFinalizerKey) by discriminate.
  split; [exact Hd |].
  destruct (delete_keeps_consumerFinalizerKey aStreamFinalizerKey aReadyCondType
              quotePlain Hd) as [Hrun _].
  unfold traceOf. rewrite Hrun. simpl. tauto.
Defined.

(** The test [update consumer]. *)
Lemma update_of_existing_consumer_only_warns_witness :
  remoteExists (testTrace [changedConsumerObject] noErrors None None None) = Some true
  /\ filter isMutation (testTrace [changedConsumerObject] noErrors None None None) = []
  /\ length (filter isWarning
               (testTrace [changedConsumerObject] noErrors None None None)) = 1.
Proof.
  assert (Hex : remoteExists (testTrace [changedConsumerObject] noErrors None None None)
                = Some true) by reflexivity.
  destruct (update_of_existing_consumer_only_warns aStreamFinalizerKey aReadyCondType
              quotePlain (fakeController [changedConsumerObject] None None None)
              "default" "my-consumer" (mockClient noErrors) tt changedConsumerObject
              eq_refl eq_refl ltac:(discriminate) Hex)
    as [creds [w' [_ [Hmut Hwarn]]]].
  split; [exact Hex |]. split; [exact Hmut |]. rewrite Hwarn. reflexivity.
Defined.

(** The test [create consumer]. *)
Lemma create_of_absent_consumer_witness :
  remoteExists (testTrace [newConsumerObject] absentOnBackend None None None) = Some false
  /\ existsb failed (testTrace [newConsumerObject] absentOnBackend None None None) = false
  /\ testReturned [newConsumerObject] absentOnBackend None None None = None.
Proof.
  assert (Hab : remoteExists (testTrace [newConsumerObject] absentOnBackend None None None)
                = Some false) by reflexivity.
  assert (Hok : existsb failed (testTrace [newConsumerObject] absentOnBackend None None None)
                = false) by reflexivity.
  destruct (create_of_absent_consumer aStreamFinalizerKey aReadyCondType
              quotePlain (fakeController [newConsumerObject] None None None)
              "default" "my-consumer" (mockClient absentOnBackend) tt newConsumerObject
              eq_refl eq_refl ltac:(discriminate) Hab Hok)
    as [creds [w1 [w2 [nf [w3 [cn [w4 [res [w5 [res' [w6 H]]]]]]]]]]].
  destruct H as [_ [_ [_ [_ [_ [_ [Hrun _]]]]]]].
  split; [exact Hab |]. split; [exact Hok |].
  unfold returned. rewrite Hrun. reflexivity.
Defined.

(** The object of the test [create consumer] on a backend that refuses
    the creation: the object is not being deleted, its generation differs
    from the observed one and the consumer is reported as not found, yet
    an error is returned, the finalizer is not written and the status
    written is the errored one. *)
Lemma create_fails_when_NewConsumer_fails :
  DeletionTimestamp newConsumerObject = None
  /\ Generation newConsumerObject <> ObservedGeneration (Status_ newConsumerObject)
  /\ remoteExists (testTrace [newConsumerObject] rejectingBackend None None None)
     = Some false
  /\ testReturned [newConsumerObject] rejectingBackend None None None
     = Some (Errorf "failed to process consumer: "
               (Errorf ("failed to create consumer " ++ quotePlain "my-consumer"
                        ++ " on stream " ++ quotePlain "" ++ ": ")
                  (BaseError PlainError "invalid consumer configuration")))
  /\ filter isUpdateWrite (testTrace [newConsumerObject] rejectingBackend None None None)
     = []
  /\ map (fun o => map c_Reason (Conditions (Status_ o)))
       (statusWrites (testTrace [newConsumerObject] rejectingBackend None None None))
     = [["Errored"]].
Proof.
  split; [reflexivity |]. split; [discriminate |]. repeat split.
Qed.

(** The test [process error], connecting fails, with a store that
    refuses the status write as well. *)
Lemma failure_is_recorded_and_returned_witness :
  existsb failed
    (testTrace [newConsumerObject] unreachableBackend None None (Some conflict)) = true
  /\ exists e,
       testReturned [newConsumerObject] unreachableBackend None None (Some conflict)
       = Some (Errorf "failed to process consumer: "
                 (Errorf (Error e ++ ": ")
                    (Errorf "failed to set consumer errored status: " conflict))).
Proof.
  assert (Hfail : existsb failed
                    (testTrace [newConsumerObject] unreachableBackend None None
                       (Some conflict))
                  = true) by reflexivity.
  split; [exact Hfail |].
  destruct (failure_is_recorded_and_returned aStreamFinalizerKey aReadyCondType
              quotePlain (fakeController [newConsumerObject] None None (Some conflict))
              "default" "my-consumer" (mockClient unreachableBackend) tt newConsumerObject
              eq_refl)
    as [_ Hrec].
  destruct (Hrec Hfail) as [obj [e [e0 [wPre [pre H]]]]].
  destruct H as [_ [_ [_ [_ [_ [_ [Hjoined _]]]]]]].
  exists e. apply (Hjoined conflict). reflexivity.
Defined.

(** An object whose generation was observed: nothing to do. *)
Lemma action_follows_classification_witness :
  remoteExists (testTrace [reconciledConsumerObject] noErrors None None None) = Some true
  /\ selected (testTrace [reconciledConsumerObject] noErrors None None None)
     = Some ActNoop.
Proof.
  assert (Hex : remoteExists (testTrace [reconciledConsumerObject] noErrors None None None)
                = Some true) by reflexivity.
  split; [exact Hex |].
  destruct (action_follows_classification aStreamFinalizerKey aReadyCondType
              quotePlain (fakeController [reconciledConsumerObject] None None None)
              "default" "my-consumer" (mockClient noErrors) tt reconciledConsumerObject
              true eq_refl Hex)
    as [Hsel _].
  exact Hsel.
Defined.

(** A creation on the in-memory backend and store: the write that adds
    the token, and the consumer on the backend afterwards. *)
Lemma finalizer_set_only_after_create_witness :
  exists pre post o r,
    traceOf aStreamFinalizerKey aReadyCondType quotePlain (memController None None)
      "default" "my-consumer" memClient
      {| present := false; object := newConsumerObject |}
    = (pre ++ CallUpdate o r :: post)%list
    /\ In aStreamFinalizerKey (Finalizers o)
    /\ existsb failed pre = false
    /\ present
         (fst (snd (reconcile aStreamFinalizerKey aReadyCondType quotePlain
                      (memController None None) "default" "my-consumer" memClient
                      {| present := false; object := newConsumerObject |})))
       = true.
Proof.
  set (w0 := {| present := false; object := newConsumerObject |}).
  set (tr := traceOf aStreamFinalizerKey aReadyCondType quotePlain
               (memController None None) "default" "my-consumer" memClient w0).
  set (o := SetFinalizers newConsumerObject
              (addFinalizer (Finalizers newConsumerObject) aStreamFinalizerKey)).
  set (pre := firstn 7 tr).
  set (post := skipn 8 tr).
  assert (Hwrite : tr = (pre ++ CallUpdate o (Ok o) :: post)%list) by reflexivity.
  assert (Htoken : In aStreamFinalizerKey (Finalizers o)) by (right; left; reflexivity).
  exists pre, post, o, (Ok o).
  split; [exact Hwrite |]. split; [exact Htoken |].
  destruct (finalizer_set_only_after_create aStreamFinalizerKey aReadyCondType
              quotePlain (memController None None)
              "default" "my-consumer" memClient w0 newConsumerObject
              pre post o (Ok o) eq_refl Hwrite Htoken)
    as [_ [Hclean [_ [_ [_ Hbackend]]]]].
  split; [exact Hclean |].
  apply (Hbackend present).
  - intros stream cfg w1 cn w2 H. inversion H. reflexivity.
  - intros o1 w1 r1 w2 H. inversion H. reflexivity.
  - intros o1 w1 r1 w2 H. inversion H. reflexivity.
  - intros w1. reflexivity.
Defined.

(** A deletion on the in-memory backend and store, with a store that
    refuses the writes of a stale object: the consumer is deleted, the
    write that clears the token is refused, and the object the store
    holds still carries the token.  No creation was attempted. *)
Lemma finalizer_kept_after_remote_deleted :
  let w0 := {| present := true;
               object := SetFinalizers deletingConsumerObject [aStreamFinalizerKey] |} in
  let run := reconcile aStreamFinalizerKey aReadyCondType quotePlain
               (memController (Some conflict) (Some conflict))
               "default" "my-consumer" memClient w0 in
  In aStreamFinalizerKey (Finalizers (object (fst (snd run))))
  /\ present (fst (snd run)) = false
  /\ filter isRemoteMutation (snd (snd run)) = [CallDelete None]
  /\ filter isUpdateWrite (snd (snd run))
     = [CallUpdate (SetFinalizers deletingConsumerObject []) (Err conflict)]
  /\ fst run <> None.
Proof.
  cbv zeta. split; [left; reflexivity |].
  split; [reflexivity |]. split; [reflexivity |]. split; [reflexivity |].
  discriminate.
Qed.

(** The test [delete consumer]. *)
Lemma finalizer_token_is_streamFinalizerKey_witness :
  aStreamFinalizerKey <> consumerFinalizerKey
  /\ forall o r,
       In (CallUpdate o r) (testTrace [deletingConsumerObject] noErrors None None None) ->
       Finalizers o = [consumerFinalizerKey].
Proof.
  assert (Hd : aStreamFinalizerKey <> consumerFinalizerKey) by discriminate.
  split; [exact Hd |].
  destruct (finalizer_token_is_streamFinalizerKey aStreamFinalizerKey aReadyCondType
              quotePlain (fakeController [deletingConsumerObject] None None None)
              "default" "my-consumer" (mockClient noErrors) tt deletingConsumerObject
              Hd eq_refl)
    as [_ [_ [_ Hkeep]]].
  apply Hkeep; [discriminate | reflexivity].
Defined.

(** A key with no object in the store. *)
Lemma processConsumer_absent_from_cache_witness :
  IsNotFound notFoundInStore = true
  /\ testRun [] noErrors None None None = (None, (tt, [])).
Proof.
  split; [reflexivity |].
  destruct (processConsumer_absent_from_cache aStreamFinalizerKey aReadyCondType
              quotePlain (fakeController [] None None None)
              "default" "my-consumer" (mockClient noErrors) tt notFoundInStore eq_refl)
    as [Hnil _].
  apply Hnil. reflexivity.
Defined.

(** The delete case on an object carrying the token the create case
    adds. *)
Lemma delete_of_consumer_witness :
  existsb failed
    (testTrace [SetFinalizers deletingConsumerObject [aStreamFinalizerKey]]
       noErrors None None None) = false
  /\ forall o r,
       ~ In (CallUpdateStatus o r)
           (testTrace [SetFinalizers deletingConsumerObject [aStreamFinalizerKey]]
              noErrors None None None).
Proof.
  assert (Hok : existsb failed
                  (testTrace [SetFinalizers deletingConsumerObject [aStreamFinalizerKey]]
                     noErrors None None None) = false) by reflexivity.
  split; [exact Hok |].
  destruct (delete_of_consumer aStreamFinalizerKey aReadyCondType
              quotePlain
              (fakeController [SetFinalizers deletingConsumerObject [aStreamFinalizerKey]]
                 None None None)
              "default" "my-consumer" (mockClient noErrors) tt
              (SetFinalizers deletingConsumerObject [aStreamFinalizerKey])
              eq_refl ltac:(discriminate) Hok)
    as [creds [found [loaded [deleted [res [w' [_ [_ [_ Hnone]]]]]]]]].
  exact Hnone.
Defined.

(** Upserting the errored condition into a status that holds the ready
    condition. *)
Lemma upsertCondition_replace_or_append_witness :
  NoDup (map c_Type [readyCreated])
  /\ upsertCondition [readyCreated] readyErrored = [readyErrored].
Proof.
  assert (Hone : NoDup (map c_Type [readyCreated])).
  { simpl. constructor; [intros [] | constructor]. }
  split; [exact Hone |].
  destruct (upsertCondition_replace_or_append [readyCreated] readyErrored Hone)
    as [Hreplace _].
  apply (Hreplace [] readyCreated []); reflexivity.
Defined.

(** ** The tests of [TestProcessConsumer] *)

(** [create consumer]: no error, four events. *)
Example test_create_consumer :
  testReturned [newConsumerObject] absentOnBackend None None None = None
  /\ eventReasons (testTrace [newConsumerObject] absentOnBackend None None None)
     = ["Connecting"; "Connected"; "Creating"; "Created"]
  /\ map Finalizers
       (statusWrites (testTrace [newConsumerObject] absentOnBackend None None None))
     = [[consumerFinalizerKey; aStreamFinalizerKey]].
Proof. repeat split. Qed.

(** [update consumer]: no error, three events, the last one [Updating]. *)
Example test_update_consumer :
  testReturned [changedConsumerObject] noErrors None None None = None
  /\ eventReasons (testTrace [changedConsumerObject] noErrors None None None)
     = ["Connecting"; "Connected"; "Updating"].
Proof. repeat split. Qed.

(** [delete consumer]: no error, three events, the last one [Deleting]. *)
Example test_delete_consumer :
  testReturned [deletingConsumerObject] noErrors None None None = None
  /\ eventReasons (testTrace [deletingConsumerObject] noErrors None None None)
     = ["Connecting"; "Connected"; "Deleting"].
Proof. repeat split. Qed.

(** [process error]: an error, one event, and one status write, of an
    object with one condition whose reason is [Errored]. *)
Example test_process_error :
  testReturned [newConsumerObject] unreachableBackend None None None
  = Some (Errorf "failed to process consumer: "
            (BaseError PlainError "nats connect failed"))
  /\ eventReasons (testTrace [newConsumerObject] unreachableBackend None None None)
     = ["Connecting"]
  /\ map (fun o => map c_Reason (Conditions (Status_ o)))
       (statusWrites (testTrace [newConsumerObject] unreachableBackend None None None))
     = [["Errored"]].
Proof. repeat split. Qed.

(** A status write that fails as well: its error is joined to the one
    returned. *)
Example test_process_error_unrecorded :
  Error_of_option
    (testReturned [newConsumerObject] unreachableBackend None None
       (Some (BaseError PlainError "conflict")))
  = "failed to process consumer: nats connect failed: failed to set consumer errored status: conflict".
Proof. reflexivity. Qed.

(** ** The properties of every reconciliation on the tests *)

(** The connection of the test [create consumer] is closed once. *)
Lemma connection_is_scoped_witness :
  existsb isConnected (testTrace [newConsumerObject] absentOnBackend None None None) = true
  /\ length (filter isClose
               (testTrace [newConsumerObject] absentOnBackend None None None)) = 1.
Proof.
  split; [reflexivity |].
  destruct (connection_is_scoped aStreamFinalizerKey aReadyCondType
              quotePlain (fakeController [newConsumerObject] None None None)
              "default" "my-consumer" (mockClient absentOnBackend) tt newConsumerObject
              eq_refl)
    as [Hclose _].
  exact Hclose.
Defined.

(** The test [create consumer] calls [NewConsumer]: its object is not
    being deleted. *)
Lemma remote_mutation_matches_object_witness :
  In (CallNewConsumer "" {| Durable := "my-consumer" |} None)
     (testTrace [newConsumerObject] absentOnBackend None None None)
  /\ DeletionTimestamp newConsumerObject = None
  /\ remoteExists (testTrace [newConsumerObject] absentOnBackend None None None)
     = Some false.
Proof.
  assert (Hin : In (CallNewConsumer "" {| Durable := "my-consumer" |} None)
                   (testTrace [newConsumerObject] absentOnBackend None None None)).
  { do 6 right. left. reflexivity. }
  split; [exact Hin |].
  destruct (remote_mutation_matches_object aStreamFinalizerKey aReadyCondType
              quotePlain (fakeController [newConsumerObject] None None None)
              "default" "my-consumer" (mockClient absentOnBackend) tt newConsumerObject
              eq_refl)
    as [Hnew _].
  destruct (Hnew _ _ _ Hin) as [Hlive [_ [Habsent _]]].
  split; [exact Hlive | exact Habsent].
Defined.

(** The test [process error] writes one status. *)
Lemma status_writes_provenance_witness :
  length (statusWrites
            (testTrace [newConsumerObject] unreachableBackend None None None)) <= 2.
Proof.
  destruct (status_writes_provenance aStreamFinalizerKey aReadyCondType
              quotePlain (fakeController [newConsumerObject] None None None)
              "default" "my-consumer" (mockClient unreachableBackend) tt newConsumerObject
              eq_refl)
    as [_ [Hbound _]].
  exact Hbound.
Defined.

(** The error of the test [process error] holds the text of the failed
    connection. *)
Lemma returned_error_carries_cause_witness :
  exists e0,
    firstFailure (testTrace [newConsumerObject] unreachableBackend None None None)
    = Some e0
    /\ contains
         (Error (Errorf "failed to process consumer: "
                   (BaseError PlainError "nats connect failed")))
         (Error e0).
Proof.
  destruct (returned_error_carries_cause aStreamFinalizerKey aReadyCondType
              quotePlain (fakeController [newConsumerObject] None None None)
              "default" "my-consumer" (mockClient unreachableBackend) tt newConsumerObject
              (Errorf "failed to process consumer: "
                 (BaseError PlainError "nats connect failed"))
              eq_refl eq_refl)
    as [e0 [o [r [Hfirst [_ [_ [Hin _]]]]]]].
  exists e0. split; [exact Hfirst | exact Hin].
Defined.

(** The object of the test [create consumer] with the status a creation
    writes. *)
Lemma reconcile_after_create_is_noop_witness :
  selected
    (testTrace [okStatus aReadyCondType newConsumerObject "2020-09-16T00:42:03Z"]
       noErrors None None None)
  = Some ActNoop.
Proof.
  destruct (reconcile_after_create_is_noop aStreamFinalizerKey aReadyCondType
              quotePlain
              (fakeController
                 [okStatus aReadyCondType newConsumerObject "2020-09-16T00:42:03Z"]
                 None None None)
              "default" "my-consumer" (mockClient noErrors) tt
              newConsumerObject "2020-09-16T00:42:03Z" true
              eq_refl eq_refl eq_refl)
    as [Hnoop _].
  exact Hnoop.
Defined.

(** The events of the test [update consumer]. *)
Lemma events_follow_progress_witness :
  In (eventReasons (testTrace [changedConsumerObject] noErrors None None None))
     eventSequences.
Proof.
  destruct (events_follow_progress aStreamFinalizerKey aReadyCondType
              quotePlain (fakeController [changedConsumerObject] None None None)
              "default" "my-consumer" (mockClient noErrors) tt changedConsumerObject
              eq_refl)
    as [Hseq _].
  exact Hseq.
Defined.

(** The test [process error]: the step that fails is [Connect], and the
    errored status names no operation. *)
Lemma errored_message_names_operation_witness :
  firstFailed [] (testTrace [newConsumerObject] unreachableBackend None None None)
  = Some (firstn 2 (testTrace [newConsumerObject] unreachableBackend None None None),
          CallConnect "" "" "" (Some (BaseError PlainError "nats connect failed")))
  /\ exists obj t e r,
       last (testTrace [newConsumerObject] unreachableBackend None None None) CallClose
       = CallUpdateStatus (erroredStatus aReadyCondType obj t e) r
       /\ e = BaseError PlainError "nats connect failed".
Proof.
  assert (Hf : firstFailed []
                 (testTrace [newConsumerObject] unreachableBackend None None None)
               = Some (firstn 2 (testTrace [newConsumerObject] unreachableBackend
                                   None None None),
                       CallConnect "" "" ""
                         (Some (BaseError PlainError "nats connect failed"))))
    by reflexivity.
  split; [exact Hf |].
  destruct (errored_message_names_operation aStreamFinalizerKey aReadyCondType
              quotePlain (fakeController [newConsumerObject] None None None)
              "default" "my-consumer" (mockClient unreachableBackend) tt newConsumerObject
              _ _ eq_refl Hf)
    as [obj [t [e [r [e0 [Hlast [Hfirst He]]]]]]].
  exists obj, t, e, r. split; [exact Hlast |].
  rewrite He. simpl. injection Hfirst as <-. reflexivity.
Defined.
